(** * Lexiconic: the realtime transcription client and the batch call

    A shallow embedding of [src/realtime_transcription_test.py]
    (class [RealtimeTranscriber]) and of [src/whisper_transcription.py]
    (function [translate_audio]).

    Conventions of the embedding.
    - A Python [str] is a [string] holding its UTF-8 encoding; [bytes] is a
      [list byte].
    - The objects produced by [json.loads] are values of type [json]; a
      [dict] is an association list in insertion order.
    - Methods of the transcriber are computations in a state-and-exception
      monad [M] over [state], which holds the attributes of [self] together
      with the part of the outside world the methods act on (the console,
      the connections that were opened, the pauses that were slept).
    - [print] appends a structured [console_line] to the console instead of
      the rendered text; it raises [UnicodeEncodeError], as the UTF-8 console
      does, when the text interpolated into the line holds a surrogate.
    - What the run time decides is a parameter: the limits of the
      interpreter ([interpreter]), the machine the decoder runs on
      ([host]), whether a websocket that is no longer referenced has been
      finalised ([collected]). *)

From Stdlib Require Import ZArith NArith List String Ascii Bool Lia.
From Stdlib Require Import QArith Qminmax Strings.Byte DecimalString.
Import ListNotations.

Local Close Scope Q_scope.
Local Open Scope string_scope.

(* [lia] reads quotients and remainders by constants. *)
Local Ltac Zify.zify_post_hook ::= Z.to_euclidean_division_equations.

(** ** Characters and small string helpers *)

Definition dquote : ascii := "034"%char.
Definition backslash : ascii := "\"%char.

Definition code (c : ascii) : N := N_of_ascii c.
Definition chr (n : N) : ascii := ascii_of_N n.

Fixpoint strip_prefix (p s : string) : option string :=
  match p with
  | EmptyString => Some s
  | String a p' =>
      match s with
      | EmptyString => None
      | String b s' => if (a =? b)%char then strip_prefix p' s' else None
      end
  end.

Fixpoint repeat_char (c : ascii) (n : nat) : string :=
  match n with
  | O => EmptyString
  | S n' => String c (repeat_char c n')
  end.

Definition is_digit (c : ascii) : bool :=
  ((48 <=? code c) && (code c <=? 57))%N.

Definition digit_val (c : ascii) : N := (code c - 48)%N.

Fixpoint span_digits (s : string) : string * string :=
  match s with
  | EmptyString => (EmptyString, EmptyString)
  | String c r =>
      if is_digit c
      then let (ds, rest) := span_digits r in (String c ds, rest)
      else (EmptyString, s)
  end.

Fixpoint digits_value (acc : N) (ds : string) : N :=
  match ds with
  | EmptyString => acc
  | String c r => digits_value (10 * acc + digit_val c)%N r
  end.

Definition N_to_dec (n : N) : string := NilEmpty.string_of_uint (N.to_uint n).

Definition hex_val (c : ascii) : option N :=
  let n := code c in
  if ((48 <=? n) && (n <=? 57))%N then Some (n - 48)%N
  else if ((97 <=? n) && (n <=? 102))%N then Some (n - 87)%N
  else if ((65 <=? n) && (n <=? 70))%N then Some (n - 55)%N
  else None.

Definition hex_digit (n : N) : ascii :=
  if (n <? 10)%N then chr (48 + n) else chr (87 + n).

Definition hex4 (n : N) : string :=
  String (hex_digit (n / 4096 mod 16))
    (String (hex_digit (n / 256 mod 16))
       (String (hex_digit (n / 16 mod 16))
          (String (hex_digit (n mod 16)) EmptyString))).

(** ** UTF-8, the encoding of [str] used throughout *)

Definition utf8_encode (cp : N) : string :=
  (if cp <? 128 then String (chr cp) EmptyString
   else if cp <? 2048 then
     String (chr (192 + cp / 64)) (String (chr (128 + cp mod 64)) EmptyString)
   else if cp <? 65536 then
     String (chr (224 + cp / 4096))
       (String (chr (128 + cp / 64 mod 64))
          (String (chr (128 + cp mod 64)) EmptyString))
   else
     String (chr (240 + cp / 262144))
       (String (chr (128 + cp / 4096 mod 64))
          (String (chr (128 + cp / 64 mod 64))
             (String (chr (128 + cp mod 64)) EmptyString))))%N.

Definition is_cont (c : ascii) : bool :=
  ((128 <=? code c) && (code c <? 192))%N.

(** The code points of a [str].  A byte that does not start a well-formed
    sequence cannot occur in the encoding of a [str]; it is read as the code
    point of its own value so that the function is total. *)
Fixpoint utf8_decode (s : string) : list N :=
  match s with
  | EmptyString => []
  | String a r =>
      let stray := code a :: utf8_decode r in
      (if code a <? 192 then stray
       else
         match r with
         | String b r1 =>
             if negb (is_cont b) then stray
             else if code a <? 224 then
               ((code a - 192) * 64 + (code b - 128)) :: utf8_decode r1
             else
               match r1 with
               | String c r2 =>
                   if negb (is_cont c) then stray
                   else if code a <? 240 then
                     ((code a - 224) * 4096 + (code b - 128) * 64
                      + (code c - 128)) :: utf8_decode r2
                   else
                     match r2 with
                     | String d r3 =>
                         if negb (is_cont d) then stray
                         else
                           ((code a - 240) * 262144 + (code b - 128) * 4096
                            + (code c - 128) * 64 + (code d - 128))
                             :: utf8_decode r3
                     | EmptyString => stray
                     end
               | EmptyString => stray
               end
         | EmptyString => stray
         end)%N
  end.

(** A [str] can hold surrogate code points (the decoder of [json] produces
    them from [\uD800] escapes); the UTF-8 codec refuses to encode them. *)
Definition is_surrogate (cp : N) : bool := ((55296 <=? cp) && (cp <? 57344))%N.

Definition encodable (s : string) : bool :=
  forallb (fun cp => negb (is_surrogate cp)) (utf8_decode s).

(** ** Exceptions *)

(** A Python exception: its class and [str(e)]. *)
Inductive exn : Type :=
| AttributeError (msg : string)
| TypeError (msg : string)
| RuntimeError (msg : string)
| ClientError (msg : string)
| OSError (msg : string)
| APIError (msg : string)
| UnicodeEncodeError (msg : string)
| RecursionError (msg : string)
| ValueError (msg : string)
| OverflowError (msg : string).

(** [str(e)], as interpolated by the f-strings of the source. *)
Definition exn_str (e : exn) : string :=
  match e with
  | AttributeError msg | TypeError msg | RuntimeError msg | ClientError msg
  | OSError msg | APIError msg | UnicodeEncodeError msg | RecursionError msg
  | ValueError msg | OverflowError msg => msg
  end.

Inductive result (A : Type) : Type :=
| Ok (a : A)
| Raise (e : exn).
Arguments Ok {A} a.
Arguments Raise {A} e.

(** What [encode] raises on the text [cps] that starts at position [pos] of
    the string written: the first run of surrogates, with the message of
    CPython. *)
Fixpoint surrogate_run (cps : list N) : nat :=
  match cps with
  | cp :: rest => if is_surrogate cp then S (surrogate_run rest) else 0
  | [] => 0
  end.

Fixpoint encode_error (pos : nat) (cps : list N) : option exn :=
  match cps with
  | [] => None
  | cp :: rest =>
      if is_surrogate cp then
        Some (UnicodeEncodeError
                (match surrogate_run rest with
                 | O =>
                     "'utf-8' codec can't encode character '"
                       ++ String backslash ("u" ++ hex4 cp)
                       ++ "' in position " ++ N_to_dec (N.of_nat pos)
                 | S more =>
                     "'utf-8' codec can't encode characters in position "
                       ++ N_to_dec (N.of_nat pos) ++ "-"
                       ++ N_to_dec (N.of_nat (pos + S more))
                 end ++ ": surrogates not allowed"))
      else encode_error (S pos) rest
  end.

(** A text of ASCII characters only. *)
Fixpoint ascii_text (s : string) : bool :=
  match s with
  | EmptyString => true
  | String c r => (code c <? 128)%N && ascii_text r
  end.

(** A result that is not an exception, or an exception whose message
    [print] can show. *)
Definition harmless {A} (r : result A) : Prop :=
  match r with
  | Raise e => ascii_text (exn_str e) = true
  | Ok _ => True
  end.

(** ** JSON values as Python objects *)

(** A Python [float] read from a decimal numeral: [FDec neg m e] is the
    binary64 nearest to [(-1)^neg * m * 10^e]. *)
Inductive pyfloat : Type :=
| FDec (neg : bool) (m : N) (e : Z)
| FInf (neg : bool)
| FNaN.

#[local] Unset Elimination Schemes.
Inductive json : Type :=
| JNull
| JBool (b : bool)
| JInt (z : Z)
| JFloat (f : pyfloat)
| JStr (s : string)
| JArr (items : list json)
| JObj (members : list (string * json)).
#[local] Set Elimination Schemes.

Definition dict := list (string * json).

(** [d.get(key, default)] *)
Fixpoint dict_get (d : dict) (key : string) (default : json) : json :=
  match d with
  | [] => default
  | (k, v) :: d' => if (k =? key)%string then v else dict_get d' key default
  end.

(** [d[key] = v]: an existing key keeps its position. *)
Fixpoint dict_set (d : dict) (key : string) (v : json) : dict :=
  match d with
  | [] => [(key, v)]
  | (k, w) :: d' =>
      if (k =? key)%string then (k, v) :: d' else (k, w) :: dict_set d' key v
  end.

(** The decimal [m * 10^e] rounds to zero in binary64 (round to nearest,
    ties to even) exactly when it is at most half the least subnormal,
    [2^-1075]. *)
Definition rounds_to_zero (m : N) (e : Z) : bool :=
  ((Z.of_N m =? 0) || ((e <? 0) && (Z.of_N m * 2 ^ 1075 <=? 10 ^ (- e))))%Z.

(** [bool(x)] *)
Definition truthy (x : json) : bool :=
  match x with
  | JNull => false
  | JBool b => b
  | JInt z => negb (z =? 0)%Z
  | JFloat (FDec _ m e) => negb (rounds_to_zero m e)
  | JFloat _ => true
  | JStr s => negb (s =? "")%string
  | JArr items => match items with [] => false | _ => true end
  | JObj members => match members with [] => false | _ => true end
  end.

(** [x == s] for a string literal [s] *)
Definition eq_str (x : json) (s : string) : bool :=
  match x with
  | JStr t => (t =? s)%string
  | _ => false
  end.

(** ** [json.loads]

    The decoder of the Python standard library on a [str]: white space is
    space, tab, line feed and carriage return; strings are scanned in strict
    mode (no raw control character); anything after the value other than
    white space is an error.  Three things are settings of the scan:
    whether the constants [NaN], [Infinity] and [-Infinity] are accepted
    (they are by [json.loads], they are not JSON), how many arrays and
    objects may be entered inside one another before the interpreter raises
    [RecursionError], and how many digits an [int] may have before it raises
    [ValueError] ([sys.get_int_max_str_digits()], where [0] is no limit). *)

Record scanner : Type := {
  parse_constant : bool;
  nesting_left : nat;
  int_max_str_digits : nat
}.

(** How a scan ends: with a value, with [json.JSONDecodeError], or with
    another exception, which the interpreter raised on the way. *)
Inductive scanned (A : Type) : Type :=
| Scanned (a : A)
| Malformed
| GaveUp (e : exn).
Arguments Scanned {A} a.
Arguments Malformed {A}.
Arguments GaveUp {A} e.

(** The scan [r] gives the value [x], unless the interpreter gave up. *)
Definition follows {A} (x : A) (r : scanned A) : Prop :=
  r = Scanned x \/ exists e, r = GaveUp e.

Definition is_ws (c : ascii) : bool :=
  let n := code c in ((n =? 32) || (n =? 9) || (n =? 10) || (n =? 13))%N.

Fixpoint skip_ws (s : string) : string :=
  match s with
  | EmptyString => EmptyString
  | String c r => if is_ws c then skip_ws r else s
  end.

Definition simple_escape (c : ascii) : option ascii :=
  let n := code c in
  (if n =? 34 then Some dquote
   else if n =? 92 then Some backslash
   else if n =? 47 then Some "/"%char
   else if n =? 98 then Some (chr 8)
   else if n =? 102 then Some (chr 12)
   else if n =? 110 then Some (chr 10)
   else if n =? 114 then Some (chr 13)
   else if n =? 116 then Some (chr 9)
   else None)%N.

Definition hex4_val (a b c d : ascii) : option N :=
  match hex_val a, hex_val b, hex_val c, hex_val d with
  | Some x, Some y, Some z, Some w => Some (x * 4096 + y * 256 + z * 16 + w)%N
  | _, _, _, _ => None
  end.

(** The body of a string literal, after its opening quote: the characters
    up to the closing quote, a [\uXXXX] escape kept apart as its 16-bit
    unit, and the text that follows the closing quote. *)
Fixpoint scan_string (s : string) : option (list (ascii + N) * string) :=
  match s with
  | EmptyString => None
  | String c r =>
      if (c =? dquote)%char then Some ([], r)
      else if (c =? backslash)%char then
        match r with
        | EmptyString => None
        | String e r1 =>
            if (e =? "u")%char then
              match r1 with
              | String h1 (String h2 (String h3 (String h4 r2))) =>
                  match hex4_val h1 h2 h3 h4 with
                  | Some u =>
                      match scan_string r2 with
                      | Some (items, rest) => Some (inr u :: items, rest)
                      | None => None
                      end
                  | None => None
                  end
              | _ => None
              end
            else
              match simple_escape e with
              | Some ch =>
                  match scan_string r1 with
                  | Some (items, rest) => Some (inl ch :: items, rest)
                  | None => None
                  end
              | None => None
              end
        end
      else if (code c <? 32)%N then None
      else
        match scan_string r with
        | Some (items, rest) => Some (inl c :: items, rest)
        | None => None
        end
  end.

Definition is_high (u : N) : bool := ((55296 <=? u) && (u <? 56320))%N.
Definition is_low (u : N) : bool := ((56320 <=? u) && (u <? 57344))%N.

(** A high surrogate escape directly followed by a low one is one code
    point; every other unit stands for itself. *)
Fixpoint assemble (items : list (ascii + N)) : string :=
  match items with
  | [] => EmptyString
  | inl c :: r => String c (assemble r)
  | inr u :: r =>
      match r with
      | inr v :: r' =>
          if is_high u && is_low v
          then utf8_encode (65536 + (u - 55296) * 1024 + (v - 56320))%N
                 ++ assemble r'
          else utf8_encode u ++ assemble r
      | _ => utf8_encode u ++ assemble r
      end
  end.

Definition parse_string (s : string) : option (string * string) :=
  match scan_string s with
  | Some (items, rest) => Some (assemble items, rest)
  | None => None
  end.

(** A numeral: an optional minus sign, an integer part that is [0] or
    starts with a non-zero digit, an optional fraction (a dot and at least
    one digit) and an optional exponent ([e] or [E], a sign, at least one
    digit).  [numeral] gives the sign, the digits of the integer part and of
    the fraction, the exponent and the text that follows. *)
Definition numeral (s : string)
  : option (bool * string * string * option Z * string) :=
  let (neg, s1) :=
    match s with
    | String c r => if (c =? "-")%char then (true, r) else (false, s)
    | EmptyString => (false, s)
    end in
  let (ip, s2) :=
    match s1 with
    | String c r =>
        if (c =? "0")%char then ("0", r) else span_digits s1
    | EmptyString => (EmptyString, s1)
    end in
  match ip with
  | EmptyString => None
  | _ =>
      let (fp, s3) :=
        match s2 with
        | String c r =>
            if (c =? ".")%char then
              match span_digits r with
              | (EmptyString, _) => (EmptyString, s2)
              | (ds, rest) => (ds, rest)
              end
            else (EmptyString, s2)
        | EmptyString => (EmptyString, s2)
        end in
      let '(ex, s4) :=
        match s3 with
        | String c r =>
            if ((c =? "e") || (c =? "E"))%char then
              let (eneg, r1) :=
                match r with
                | String g r' =>
                    if (g =? "-")%char then (true, r')
                    else if (g =? "+")%char then (false, r')
                    else (false, r)
                | EmptyString => (false, r)
                end in
              match span_digits r1 with
              | (EmptyString, _) => (None, s3)
              | (ds, rest) =>
                  let v := Z.of_N (digits_value 0 ds) in
                  (Some (if eneg then (- v)%Z else v), rest)
              end
            else (None, s3)
        | EmptyString => (None, s3)
        end in
      Some (neg, ip, fp, ex, s4)
  end.

(** [int(digits)] under the limit on the digits of an [int]. *)
Definition digits_refused (cfg : scanner) (digits : string) : option exn :=
  if ((0 <? int_max_str_digits cfg)
      && (int_max_str_digits cfg <? String.length digits))%nat
  then
    Some (ValueError
            ("Exceeds the limit ("
               ++ N_to_dec (N.of_nat (int_max_str_digits cfg))
               ++ " digits) for integer string conversion: value has "
               ++ N_to_dec (N.of_nat (String.length digits))
               ++ " digits; use sys.set_int_max_str_digits() to increase the limit"))
  else None.

(** A numeral is an [int] when it has neither fraction nor exponent, a
    [float] otherwise. *)
Definition parse_number (cfg : scanner) (s : string)
  : scanned (json * string) :=
  match numeral s with
  | None => Malformed
  | Some (neg, ip, fp, ex, rest) =>
      match fp, ex with
      | EmptyString, None =>
          match digits_refused cfg ip with
          | Some e => GaveUp e
          | None =>
              let v := Z.of_N (digits_value 0 ip) in
              Scanned (JInt (if neg then (- v)%Z else v), rest)
          end
      | _, _ =>
          let m := digits_value 0 (ip ++ fp) in
          let e := match ex with Some x => x | None => 0%Z end in
          Scanned (JFloat (FDec neg m (e - Z.of_nat (String.length fp))), rest)
      end
  end.

Definition parse_literal (cfg : scanner) (s : string)
  : scanned (json * string) :=
  match strip_prefix "null" s with
  | Some r => Scanned (JNull, r)
  | None =>
  match strip_prefix "true" s with
  | Some r => Scanned (JBool true, r)
  | None =>
  match strip_prefix "false" s with
  | Some r => Scanned (JBool false, r)
  | None =>
  match (if parse_constant cfg then strip_prefix "NaN" s else None) with
  | Some r => Scanned (JFloat FNaN, r)
  | None =>
  match (if parse_constant cfg then strip_prefix "Infinity" s else None) with
  | Some r => Scanned (JFloat (FInf false), r)
  | None =>
  match (if parse_constant cfg then strip_prefix "-Infinity" s else None) with
  | Some r => Scanned (JFloat (FInf true), r)
  | None => parse_number cfg s
  end end end end end end.

Definition too_deep (what : string) : exn :=
  RecursionError
    ("maximum recursion depth exceeded while decoding a JSON " ++ what
       ++ " from a unicode string").

(** One value at the head of [s], with [depth] arrays and objects left to
    enter.  Every call made on the way consumes at least one character, so
    [fuel] above twice the length of the text is never exhausted. *)
Fixpoint parse_value (cfg : scanner) (fuel depth : nat) (s : string)
    {struct fuel} : scanned (json * string) :=
  match fuel with
  | O => Malformed
  | S fuel' =>
      match s with
      | EmptyString => Malformed
      | String c r =>
          if (c =? dquote)%char then
            match parse_string r with
            | Some (t, rest) => Scanned (JStr t, rest)
            | None => Malformed
            end
          else if (c =? "{")%char then
            match depth with
            | O => GaveUp (too_deep "object")
            | S depth' =>
                match skip_ws r with
                | String c1 r1 =>
                    if (c1 =? "}")%char then Scanned (JObj [], r1)
                    else parse_members cfg fuel' depth' (skip_ws r) []
                | EmptyString => Malformed
                end
            end
          else if (c =? "[")%char then
            match depth with
            | O => GaveUp (too_deep "array")
            | S depth' =>
                match skip_ws r with
                | String c1 r1 =>
                    if (c1 =? "]")%char then Scanned (JArr [], r1)
                    else parse_elements cfg fuel' depth' (skip_ws r) []
                | EmptyString => Malformed
                end
            end
          else parse_literal cfg s
      end
  end

with parse_elements (cfg : scanner) (fuel depth : nat) (s : string)
    (acc : list json) {struct fuel} : scanned (json * string) :=
  match fuel with
  | O => Malformed
  | S fuel' =>
      match parse_value cfg fuel' depth s with
      | Scanned (v, r) =>
          match skip_ws r with
          | String c r1 =>
              if (c =? ",")%char then
                parse_elements cfg fuel' depth (skip_ws r1) (acc ++ [v])
              else if (c =? "]")%char then Scanned (JArr (acc ++ [v]), r1)
              else Malformed
          | EmptyString => Malformed
          end
      | Malformed => Malformed
      | GaveUp e => GaveUp e
      end
  end

with parse_members (cfg : scanner) (fuel depth : nat) (s : string)
    (acc : dict) {struct fuel} : scanned (json * string) :=
  match fuel with
  | O => Malformed
  | S fuel' =>
      match s with
      | String q r =>
          if (q =? dquote)%char then
            match parse_string r with
            | Some (key, r1) =>
                match skip_ws r1 with
                | String c r2 =>
                    if (c =? ":")%char then
                      match parse_value cfg fuel' depth (skip_ws r2) with
                      | Scanned (v, r3) =>
                          match skip_ws r3 with
                          | String c' r4 =>
                              if (c' =? ",")%char then
                                parse_members cfg fuel' depth (skip_ws r4)
                                  (dict_set acc key v)
                              else if (c' =? "}")%char then
                                Scanned (JObj (dict_set acc key v), r4)
                              else Malformed
                          | EmptyString => Malformed
                          end
                      | Malformed => Malformed
                      | GaveUp e => GaveUp e
                      end
                    else Malformed
                | EmptyString => Malformed
                end
            | None => Malformed
            end
          else Malformed
      | EmptyString => Malformed
      end
  end.

Definition scan (cfg : scanner) (s : string) : scanned json :=
  match parse_value cfg (S (2 * String.length s)) (nesting_left cfg)
          (skip_ws s) with
  | Scanned (v, rest) =>
      match skip_ws rest with
      | EmptyString => Scanned v
      | String _ _ => Malformed
      end
  | Malformed => Malformed
  | GaveUp e => GaveUp e
  end.

(** The interpreter the client runs on, as far as decoding goes: how many
    arrays and objects [json.loads] can still enter when it is called (the
    recursion limit less the frames in use), and the limit on the digits of
    an [int]. *)
Record interpreter : Type := {
  recursion_room : nat;
  max_str_digits : nat
}.

(** [json.loads(s)] on the interpreter [py]. *)
Definition json_loads_on (py : interpreter) (s : string) : scanned json :=
  scan {| parse_constant := true; nesting_left := recursion_room py;
          int_max_str_digits := max_str_digits py |} s.

(** A scan that the limits of an interpreter cannot cut short: the text has
    fewer arrays and objects than characters. *)
Definition unbounded (constants : bool) (s : string) : scanner :=
  {| parse_constant := constants; nesting_left := S (String.length s);
     int_max_str_digits := 0 |}.

(** [json.loads(s)] where the limits are out of reach; [None] is
    [json.JSONDecodeError]. *)
Definition json_loads (s : string) : option json :=
  match scan (unbounded true s) s with
  | Scanned v => Some v
  | _ => None
  end.

(** The payload is valid JSON: a text of the grammar of JSON, which has
    neither [NaN] nor [Infinity]. *)
Definition valid_json (s : string) : bool :=
  match scan (unbounded false s) s with
  | Scanned _ => true
  | _ => false
  end.

(** ** [json.dumps]

    The encoder with its defaults: [ensure_ascii=True], item separator
    [", "] and key separator [": "], keys in insertion order. *)

Definition escape_cp (cp : N) : string :=
  (if cp =? 34 then String backslash (String dquote EmptyString)
   else if cp =? 92 then String backslash (String backslash EmptyString)
   else if cp =? 10 then String backslash "n"
   else if cp =? 13 then String backslash "r"
   else if cp =? 9 then String backslash "t"
   else if cp =? 8 then String backslash "b"
   else if cp =? 12 then String backslash "f"
   else if (32 <=? cp) && (cp <=? 126) then String (chr cp) EmptyString
   else if cp <? 65536 then String backslash (String "u" (hex4 cp))
   else
     let v := cp - 65536 in
     String backslash (String "u" (hex4 (55296 + v / 1024 mod 1024)))
       ++ String backslash (String "u" (hex4 (56320 + v mod 1024))))%N.

Definition encode_basestring_ascii (s : string) : string :=
  String dquote
    (fold_right (fun cp acc => escape_cp cp ++ acc)
       (String dquote EmptyString) (utf8_decode s)).

Fixpoint rstrip_zeros (s : string) : string :=
  match s with
  | EmptyString => EmptyString
  | String c r =>
      match rstrip_zeros r with
      | EmptyString => if (c =? "0")%char then EmptyString else String c EmptyString
      | r' => String c r'
      end
  end.

Definition Z_to_dec (z : Z) : string :=
  if (z <? 0)%Z then "-" ++ N_to_dec (Z.abs_N z) else N_to_dec (Z.abs_N z).

(** [repr] of a float given by its shortest round-tripping digits, which is
    how the floats written in the source are given: positional notation
    when the decimal point falls within [-4 < decpt <= 16], scientific
    notation with an exponent of at least two digits otherwise. *)
Definition float_repr (f : pyfloat) : string :=
  match f with
  | FNaN => "NaN"
  | FInf false => "Infinity"
  | FInf true => "-Infinity"
  | FDec neg m e =>
      let sign := if neg then "-" else "" in
      if (m =? 0)%N then sign ++ "0.0"
      else
        let ds := N_to_dec m in
        let sig := rstrip_zeros ds in
        let nd := Z.of_nat (String.length sig) in
        let decpt := (Z.of_nat (String.length ds) + e)%Z in
        sign ++
        (if ((-4 <? decpt) && (decpt <=? 16))%Z then
           if (decpt <=? 0)%Z then
             "0." ++ repeat_char "0" (Z.to_nat (- decpt)) ++ sig
           else if (nd <=? decpt)%Z then
             sig ++ repeat_char "0" (Z.to_nat (decpt - nd)) ++ ".0"
           else
             substring 0 (Z.to_nat decpt) sig ++ "."
               ++ substring (Z.to_nat decpt) (Z.to_nat (nd - decpt)) sig
         else
           let x := (decpt - 1)%Z in
           let xs := N_to_dec (Z.abs_N x) in
           substring 0 1 sig
             ++ (if (1 <? nd)%Z
                 then "." ++ substring 1 (Z.to_nat (nd - 1)) sig else "")
             ++ "e" ++ (if (x <? 0)%Z then "-" else "+")
             ++ (if (String.length xs <? 2)%nat then "0" ++ xs else xs))
  end.

Fixpoint json_dumps (v : json) : string :=
  match v with
  | JNull => "null"
  | JBool true => "true"
  | JBool false => "false"
  | JInt z => Z_to_dec z
  | JFloat f => float_repr f
  | JStr s => encode_basestring_ascii s
  | JArr items =>
      "[" ++
      (fix join (l : list json) : string :=
         match l with
         | [] => ""
         | x :: r =>
             json_dumps x ++ match r with [] => "" | _ => ", " ++ join r end
         end) items
      ++ "]"
  | JObj members =>
      "{" ++
      (fix join (l : list (string * json)) : string :=
         match l with
         | [] => ""
         | (k, x) :: r =>
             encode_basestring_ascii k ++ ": " ++ json_dumps x
               ++ match r with [] => "" | _ => ", " ++ join r end
         end) members
      ++ "}"
  end.

(** ** State, exceptions and the monad of the methods *)

(** [type(x).__name__] *)
Definition type_name (x : json) : string :=
  match x with
  | JNull => "NoneType"
  | JBool _ => "bool"
  | JInt _ => "int"
  | JFloat _ => "float"
  | JStr _ => "str"
  | JArr _ => "list"
  | JObj _ => "dict"
  end.

(** One line written by [print]; the emoji and the fixed text of each
    message are left out, the interpolated value is kept. *)
Inductive console_line : Type :=
| Connected
| SessionConfigured
| FailedToConnect (e : exn)
| ErrorSendingAudio (e : exn)
| InvalidJSON (raw : string)
| WebSocketError (shown : string)    (* [str(self.websocket.exception())] *)
| ConnectionClosed
| ErrorListening (e : exn)
| SessionCreated
| SpeechDetected
| SpeechEnded
| Transcription (transcript : json)
| TranscriptionFailed (error : json)
| APIErrorLine (error : json)
| ErrorSendingCommit (e : exn).

(** A websocket the client opened: whether it is closed, and the text
    frames sent on it, oldest first. *)
Record connection : Type := {
  closed : bool;
  sent : list string
}.

Record state : Type := {
  (* attributes of [self] *)
  api_key : string;
  websocket : option nat;      (* index into [conns]; [None] is [None] *)
  session : option nat;        (* the [aiohttp.ClientSession], by number *)
  is_recording : bool;
  transcription_buffer : list json;
  (* the world *)
  conns : list connection;
  sessions : nat;              (* client sessions created so far *)
  console : list console_line;
  slept : list Q               (* arguments of [asyncio.sleep], in seconds *)
}.

(** [RealtimeTranscriber.__init__] in a fresh world *)
Definition init (key : string) : state :=
  {| api_key := key; websocket := None; session := None;
     is_recording := false; transcription_buffer := [];
     conns := []; sessions := 0; console := []; slept := [] |}.

Definition set_websocket (w : option nat) (st : state) : state :=
  {| api_key := api_key st; websocket := w; session := session st;
     is_recording := is_recording st;
     transcription_buffer := transcription_buffer st;
     conns := conns st; sessions := sessions st; console := console st;
     slept := slept st |}.

Definition set_session (x : option nat) (n : nat) (st : state) : state :=
  {| api_key := api_key st; websocket := websocket st; session := x;
     is_recording := is_recording st;
     transcription_buffer := transcription_buffer st;
     conns := conns st; sessions := n; console := console st;
     slept := slept st |}.

Definition set_transcription_buffer (b : list json) (st : state) : state :=
  {| api_key := api_key st; websocket := websocket st; session := session st;
     is_recording := is_recording st;
     transcription_buffer := b;
     conns := conns st; sessions := sessions st; console := console st;
     slept := slept st |}.

Definition set_conns (cs : list connection) (st : state) : state :=
  {| api_key := api_key st; websocket := websocket st; session := session st;
     is_recording := is_recording st;
     transcription_buffer := transcription_buffer st;
     conns := cs; sessions := sessions st; console := console st;
     slept := slept st |}.

Definition set_console (c : list console_line) (st : state) : state :=
  {| api_key := api_key st; websocket := websocket st; session := session st;
     is_recording := is_recording st;
     transcription_buffer := transcription_buffer st;
     conns := conns st; sessions := sessions st; console := c;
     slept := slept st |}.

Definition set_slept (q : list Q) (st : state) : state :=
  {| api_key := api_key st; websocket := websocket st; session := session st;
     is_recording := is_recording st;
     transcription_buffer := transcription_buffer st;
     conns := conns st; sessions := sessions st; console := console st;
     slept := q |}.

Definition M (A : Type) : Type := state -> result A * state.

Definition ret {A} (a : A) : M A := fun st => (Ok a, st).
Definition raise {A} (e : exn) : M A := fun st => (Raise e, st).
Definition bind {A B} (m : M A) (k : A -> M B) : M B :=
  fun st =>
    match m st with
    | (Ok a, st') => k a st'
    | (Raise e, st') => (Raise e, st')
    end.
(** [try: m except Exception as e: h e] *)
Definition try_except {A} (m : M A) (h : exn -> M A) : M A :=
  fun st =>
    match m st with
    | (Ok a, st') => (Ok a, st')
    | (Raise e, st') => h e st'
    end.

Declare Scope monad_scope.
Delimit Scope monad_scope with monad.
Notation "x <- c1 ;; c2" := (bind c1 (fun x => c2))
  (at level 61, c1 at next level, right associativity) : monad_scope.
Notation "c1 ;; c2" := (bind c1 (fun _ => c2))
  (at level 61, right associativity) : monad_scope.
Local Open Scope monad_scope.

Definition get : M state := fun st => (Ok st, st).
Definition modify (f : state -> state) : M unit := fun st => (Ok tt, f st).

(** The text an f-string interpolates as it is, [str(x)] of a [str] or of
    an exception, and the number of code points of the line before it.
    Every other value is shown through [repr], which escapes what cannot be
    printed, surrogates included. *)
Definition shown_value (before : nat) (x : json) : option (nat * string) :=
  match x with
  | JStr s => Some (before, s)
  | _ => None
  end.

Definition interpolated (l : console_line) : option (nat * string) :=
  match l with
  | FailedToConnect e => Some (21, exn_str e)
  | ErrorSendingAudio e => Some (29, exn_str e)
  | InvalidJSON raw => Some (26, raw)
  | WebSocketError shown => Some (19, shown)
  | ErrorListening e => Some (33, exn_str e)
  | Transcription transcript => shown_value 17 transcript
  | TranscriptionFailed error => shown_value 24 error
  | APIErrorLine error => shown_value 13 error
  | ErrorSendingCommit e => Some (31, exn_str e)
  | _ => None
  end.

(** What writing the line to the console raises, if it does: standard
    output is a UTF-8 text stream with the [strict] error handler. *)
Definition unprintable (l : console_line) : option exn :=
  match interpolated l with
  | Some (before, text) => encode_error before (utf8_decode text)
  | None => None
  end.

Definition print (l : console_line) : M unit :=
  match unprintable l with
  | Some e => raise e
  | None => modify (fun st => set_console (console st ++ [l]) st)
  end.

(** [await asyncio.sleep(seconds)] *)
Definition sleep (seconds : Q) : M unit :=
  modify (fun st => set_slept (slept st ++ [seconds]) st).

(** ** The event dispatcher *)

(** [data.get(key, default)] on whatever [json.loads] returned: only a
    [dict] has the method. *)
Definition py_get (data : json) (key : string) (default : json) : M json :=
  match data with
  | JObj d => ret (dict_get d key default)
  | _ =>
      raise (AttributeError
               ("'" ++ type_name data ++ "' object has no attribute 'get'"))
  end.

(** [self.transcription_buffer.append(x)] *)
Definition buffer_append (x : json) : M unit :=
  modify (fun st =>
            set_transcription_buffer (transcription_buffer st ++ [x]) st).

Definition _handle_response (data : json) : M unit :=
  event_type <- py_get data "type" (JStr "") ;;
  if eq_str event_type "session.created" then
    print SessionCreated
  else if eq_str event_type "input_audio_buffer.speech_started" then
    print SpeechDetected
  else if eq_str event_type "input_audio_buffer.speech_stopped" then
    print SpeechEnded
  else if eq_str event_type
            "conversation.item.input_audio_transcription.completed" then
    transcript <- py_get data "transcript" (JStr "") ;;
    if truthy transcript then
      print (Transcription transcript) ;;
      buffer_append transcript
    else ret tt
  else if eq_str event_type
            "conversation.item.input_audio_transcription.failed" then
    error <- py_get data "error" (JObj []) ;;
    print (TranscriptionFailed error)
  else if eq_str event_type "error" then
    error <- py_get data "error" (JObj []) ;;
    print (APIErrorLine error)
  else ret tt.

(** [get_transcriptions]: a copy of the buffer. *)
Definition get_transcriptions (st : state) : list json :=
  transcription_buffer st.

(** ** The receive loop *)

Inductive WSMsgType : Type :=
| CONTINUATION | TEXT | BINARY | PING | PONG | CLOSE | CLOSING | CLOSED
| ERROR.

Record WSMessage : Type := {
  msg_type : WSMsgType;
  msg_data : string
}.

(** How [listen_for_responses] came to its end. *)
Inductive loop_end : Type :=
| Exhausted          (* the iteration over the websocket ended *)
| BrokeOnError       (* [break] on an ERROR message *)
| BrokeOnClose       (* [break] on a CLOSE message *)
| Caught (e : exn).  (* the outer [except Exception] *)

(** The body of [async for msg in self.websocket], over the messages the
    websocket delivers; the data of an ERROR message is the text of
    [self.websocket.exception()].  Only [json.JSONDecodeError] is caught
    around the handler: what else [json.loads], the handler or the [print]
    of the warning raises leaves the loop. *)
Fixpoint listen_loop (py : interpreter) (msgs : list WSMessage) : M loop_end :=
  match msgs with
  | [] => ret Exhausted
  | msg :: rest =>
      match msg_type msg with
      | TEXT =>
          match json_loads_on py (msg_data msg) with
          | Scanned data => _handle_response data ;; listen_loop py rest
          | Malformed =>
              print (InvalidJSON (msg_data msg)) ;; listen_loop py rest
          | GaveUp e => raise e
          end
      | ERROR => print (WebSocketError (msg_data msg)) ;; ret BrokeOnError
      | CLOSE => print ConnectionClosed ;; ret BrokeOnClose
      | _ => listen_loop py rest
      end
  end.

Definition listen_for_responses (py : interpreter) (msgs : list WSMessage)
  : M loop_end :=
  try_except
    (st <- get ;;
     match websocket st with
     | Some _ => listen_loop py msgs
     | None =>
         raise (TypeError
                  "'async for' requires an object with __aiter__ method, got NoneType")
     end)
    (fun e => print (ErrorListening e) ;; ret (Caught e)).

(** ** [base64]

    [base64.b64encode(data).decode('utf-8')]: the standard alphabet with
    [=] padding; its output is ASCII, so the [str] and its encoding
    coincide. *)

Definition b64_char (n : N) : ascii :=
  (if n <? 26 then chr (65 + n)
   else if n <? 52 then chr (71 + n)
   else if n <? 62 then chr (n - 4)
   else if n =? 62 then "+"%char
   else "/"%char)%N.

Definition b64_val (c : ascii) : option N :=
  let n := code c in
  (if (65 <=? n) && (n <=? 90) then Some (n - 65)
   else if (97 <=? n) && (n <=? 122) then Some (n - 71)
   else if (48 <=? n) && (n <=? 57) then Some (n + 4)
   else if n =? 43 then Some 62
   else if n =? 47 then Some 63
   else None)%N.

Definition byte_of (n : N) : byte :=
  match Byte.of_N n with
  | Some b => b
  | None => x00
  end.

Fixpoint b64encode (data : list byte) : string :=
  match data with
  | [] => EmptyString
  | [a] =>
      let n := (Byte.to_N a * 65536)%N in
      String (b64_char (n / 262144))
        (String (b64_char (n / 4096 mod 64)) "==")
  | [a; b] =>
      let n := (Byte.to_N a * 65536 + Byte.to_N b * 256)%N in
      String (b64_char (n / 262144))
        (String (b64_char (n / 4096 mod 64))
           (String (b64_char (n / 64 mod 64)) "="))
  | a :: b :: c :: rest =>
      let n := (Byte.to_N a * 65536 + Byte.to_N b * 256 + Byte.to_N c)%N in
      String (b64_char (n / 262144))
        (String (b64_char (n / 4096 mod 64))
           (String (b64_char (n / 64 mod 64))
              (String (b64_char (n mod 64)) (b64encode rest))))
  end.

(** [base64.b64decode(s, validate=True)]: groups of four characters of the
    alphabet, padding only in the last group; [None] is [binascii.Error]. *)
Fixpoint b64decode (s : string) : option (list byte) :=
  match s with
  | EmptyString => Some []
  | String c1 (String c2 (String c3 (String c4 rest))) =>
      match b64_val c1, b64_val c2 with
      | Some v1, Some v2 =>
          if (c4 =? "=")%char then
            match rest with
            | EmptyString =>
                if (c3 =? "=")%char then
                  Some [byte_of (v1 * 4 + v2 / 16)]
                else
                  match b64_val c3 with
                  | Some v3 =>
                      Some [byte_of (v1 * 4 + v2 / 16);
                            byte_of (v2 mod 16 * 16 + v3 / 4)]
                  | None => None
                  end
            | String _ _ => None
            end
          else
            match b64_val c3, b64_val c4 with
            | Some v3, Some v4 =>
                match b64decode rest with
                | Some tail =>
                    Some (byte_of (v1 * 4 + v2 / 16)
                            :: byte_of (v2 mod 16 * 16 + v3 / 4)
                            :: byte_of (v3 mod 4 * 64 + v4) :: tail)
                | None => None
                end
            | _, _ => None
            end
      | _, _ => None
      end
  | _ => None
  end%N.

(** ** Audio configuration and outbound events *)

Definition SAMPLE_RATE : Z := 24000.
Definition CHUNK_SIZE : nat := 1024.
Definition CHANNELS : nat := 1.

(** The [audio_event] dict built in [_audio_capture_loop] and in
    [stream_file]. *)
Definition audio_event (audio_data : list byte) : json :=
  JObj [("type", JStr "input_audio_buffer.append");
        ("audio", JStr (b64encode audio_data))].

Definition commit_event : json :=
  JObj [("type", JStr "input_audio_buffer.commit")].

Definition session_config : json :=
  JObj
    [("type", JStr "session.update");
     ("session",
      JObj
        [("modalities", JArr [JStr "text"; JStr "audio"]);
         ("instructions",
          JStr "You are a helpful assistant that transcribes audio in real-time.");
         ("voice", JStr "alloy");
         ("input_audio_format", JStr "pcm16");
         ("output_audio_format", JStr "pcm16");
         ("input_audio_transcription", JObj [("model", JStr "whisper-1")]);
         ("turn_detection",
          JObj
            [("type", JStr "server_vad");
             ("threshold", JFloat (FDec false 7 (-1)));
             ("prefix_padding_ms", JInt 500);
             ("silence_duration_ms", JInt 500)])])].

(** ** The transport *)

Fixpoint list_update {A} (l : list A) (i : nat) (f : A -> A) : list A :=
  match l, i with
  | [], _ => []
  | x :: r, O => f x :: r
  | x :: r, S j => x :: list_update r j f
  end.

(** [ws.closed]; a handle the client never opened does not occur. *)
Definition ws_closed (w : nat) (st : state) : bool :=
  match nth_error (conns st) w with
  | Some c => closed c
  | None => true
  end.

(** [await ws.send_str(text)]: writing to a closed websocket raises. *)
Definition send_str (w : nat) (text : string) : M unit :=
  fun st =>
    if ws_closed w st then
      (Raise (ClientError "Cannot write to closing transport"), st)
    else
      (Ok tt,
       set_conns
         (list_update (conns st) w
            (fun c => {| closed := closed c; sent := sent c ++ [text] |}))
         st).

(** [await self.session.ws_connect(uri, headers=...)]: the network either
    refuses ([Raise]) or yields a new open websocket. *)
Definition ws_connect (net : result unit) : M nat :=
  match net with
  | Raise e => raise e
  | Ok _ =>
      fun st =>
        (Ok (List.length (conns st)),
         set_conns (conns st ++ [{| closed := false; sent := [] |}]) st)
  end.

(** A websocket marked closed; what was sent on it stays. *)
Definition close_connection (c : connection) : connection :=
  {| closed := true; sent := sent c |}.

(** The assignment [self.websocket = ...] drops the reference to the
    websocket held before, another object than the new one.  When nothing
    else refers to it (no task is iterating over it) the run time finalises
    it, which closes its connection; [collected] says whether that has
    happened. *)
Definition rebind_websocket (w : nat) (collected : bool) : M unit :=
  modify (fun st =>
            set_websocket (Some w)
              (match websocket st with
               | Some old =>
                   if collected && negb (old =? w)%nat
                   then set_conns
                          (list_update (conns st) old close_connection) st
                   else st
               | None => st
               end)).

Definition connect (net : result unit) (collected : bool) : M unit :=
  try_except
    (modify (fun st => set_session (Some (sessions st)) (S (sessions st)) st) ;;
     w <- ws_connect net ;;
     rebind_websocket w collected ;;
     print Connected ;;
     send_str w (json_dumps session_config) ;;
     print SessionConfigured)
    (fun e => print (FailedToConnect e) ;; raise e).

Definition _send_audio_data (event : json) : M unit :=
  try_except
    (st <- get ;;
     match websocket st with
     | Some w =>
         if negb (ws_closed w st) then send_str w (json_dumps event)
         else ret tt
     | None => ret tt
     end)
    (fun e => print (ErrorSendingAudio e)).

(** ** Streaming a file *)

(** The [ffmpeg] child process, started with both its standard output and
    its standard error on a pipe: the writes it makes in order, to its
    standard output ([Out]) and of error text to its standard error
    ([Err]), how much of its output is buffered when each [read] is served,
    and its exit status. *)
Inductive write : Type :=
| Out (data : list byte)
| Err (text : string).

Record process : Type := {
  script : list write;
  arrivals : list nat;
  returncode : Z
}.

(** What the decoder writes to its standard output when it runs to its
    end. *)
Fixpoint stdout_of (writes : list write) : list byte :=
  match writes with
  | [] => []
  | Out data :: rest => (data ++ stdout_of rest)%list
  | Err _ :: rest => stdout_of rest
  end.

Definition stdout (proc : process) : list byte := stdout_of (script proc).

(** The machine [stream_file] runs on. *)
Record host : Type := {
  which_ffmpeg : option string;                  (* [shutil.which("ffmpeg")] *)
  path_exists : string -> bool;                  (* the file system *)
  create_subprocess_exec : string -> result process;
                                  (* the decoder started on [file_path] *)
  stderr_room : nat
    (* bytes the standard error pipe and its reader take while nobody
       consumes them *)
}.

(** [stream_file] never reads the standard error of the decoder.  A write
    of error text that no longer fits into the pipe does not return: the
    decoder hangs in it, with its standard output open.  [written] is what
    reaches the standard output, and whether the decoder then hangs. *)
Fixpoint written (room : nat) (writes : list write) : list byte * bool :=
  match writes with
  | [] => ([], false)
  | Out data :: rest =>
      let (more, hangs) := written room rest in ((data ++ more)%list, hangs)
  | Err text :: rest =>
      if (room <? String.length text)%nat then ([], true)
      else written (room - String.length text) rest
  end.

(** [await proc.stdout.read(n)] on an [asyncio.StreamReader] with bytes
    pending: at most [n] bytes, returned as soon as at least one byte is
    buffered.  With nothing pending it answers the empty [bytes] of the end
    of file.  Once [arrivals] is used up every read finds all the remaining
    output buffered. *)
Definition read (n : nat) (pending : list byte) (arr : list nat)
  : list byte * (list byte * list nat) :=
  match pending with
  | [] => ([], ([], arr))
  | _ :: _ =>
      let buffered :=
        match arr with
        | a :: _ => Nat.max 1 a
        | [] => List.length pending
        end in
      let k := Nat.min n buffered in
      (firstn k pending, (skipn k pending, tl arr))
  end.

Definition bytes_per_frame : nat := 2.
Definition chunk_bytes : nat := CHUNK_SIZE * bytes_per_frame.
Definition seconds_per_chunk : Q :=
  (inject_Z (Z.of_nat CHUNK_SIZE) / inject_Z SAMPLE_RATE)%Q.

(** A Python number passed as [realtime_factor]: an [int], or a [float]
    that is finite (given by its value; the rounding of binary64 is left
    out of the arithmetic), infinite or not a number. *)
Inductive number : Type :=
| Integer (z : Z)
| Finite (q : Q)
| Infinite (negative : bool)
| NotANumber.

(** [max(realtime_factor, 1e-6)]: the second argument is returned when it
    is greater than the first, the first otherwise. *)
Definition clamp (realtime_factor : number) : number :=
  match realtime_factor with
  | Integer z => if (z <=? 0)%Z then Finite (1 # 1000000) else Integer z
  | Finite q =>
      if Qle_bool (1 # 1000000) q then Finite q else Finite (1 # 1000000)
  | Infinite true => Finite (1 # 1000000)
  | Infinite false => Infinite false
  | NotANumber => NotANumber
  end.

(** The least [int] that has no [float]: half a unit in the last place
    above the greatest binary64. *)
Definition float_overflow : Z := (2 ^ 1024 - 2 ^ 970)%Z.

(** [max(0.0, seconds_per_chunk / max(realtime_factor, 1e-6))]: dividing a
    [float] by an [int] converts the [int], which raises [OverflowError]
    when it is too large; a quotient that is not greater than [0.0], the
    one by a NaN included, gives [0.0]. *)
Definition pace (realtime_factor : number) : result Q :=
  match clamp realtime_factor with
  | Integer z =>
      if (float_overflow <=? z)%Z
      then Raise (OverflowError "int too large to convert to float")
      else Ok (Qmax 0 (seconds_per_chunk / inject_Z z))%Q
  | Finite q => Ok (Qmax 0 (seconds_per_chunk / q))%Q
  | Infinite _ => Ok 0%Q
  | NotANumber => Ok 0%Q
  end.

(** How a call of [stream_file] goes: it returns or raises, or it never
    returns; in each case with the state it has reached. *)
Inductive run : Type :=
| Ended (r : result unit) (st : state)
| Blocked (st : state).

(** The [while True] loop of [stream_file]; [hangs] says that the decoder
    hangs once [pending] is read, so that the next [read] never returns
    instead of finding the end of file.  [None]: [fuel] iterations were not
    enough to reach the end of [pending]. *)
Fixpoint stream_loop (fuel : nat) (realtime_factor : number)
    (pending : list byte) (arr : list nat) (hangs : bool) (st : state)
  : option run :=
  match fuel with
  | O => None
  | S fuel' =>
      match read chunk_bytes pending arr with
      | ([], _) => Some (if hangs then Blocked st else Ended (Ok tt) st)
      | (data, (pending', arr')) =>
          match (_send_audio_data (audio_event data) ;;
                 match pace realtime_factor with
                 | Ok seconds => sleep seconds
                 | Raise e => raise e
                 end) st with
          | (Ok _, st') =>
              stream_loop fuel' realtime_factor pending' arr' hangs st'
          | (Raise e, st') => Some (Ended (Raise e) st')
          end
      end
  end.

Definition send_commit_event : M unit :=
  try_except
    (st <- get ;;
     match websocket st with
     | Some w => send_str w (json_dumps commit_event)
     | None =>
         raise (AttributeError
                  "'NoneType' object has no attribute 'send_str'")
     end)
    (fun e => print (ErrorSendingCommit e)).

Definition stream_file (h : host) (file_path : string)
    (realtime_factor : number) (send_commit : bool) (st : state)
  : option run :=
  match which_ffmpeg h with
  | None =>
      Some (Ended
              (Raise (RuntimeError
                 "ffmpeg is required to stream audio files. Install it, e.g., `brew install ffmpeg`."))
              st)
  | Some _ =>
      match create_subprocess_exec h file_path with
      | Raise e =>
          Some (Ended
                  (Raise (RuntimeError
                     ("Failed to start ffmpeg for " ++ file_path ++ ": "
                        ++ exn_str e))) st)
      | Ok proc =>
          let (output, hangs) := written (stderr_room h) (script proc) in
          match stream_loop (S (List.length output)) realtime_factor
                  output (arrivals proc) hangs st with
          | Some (Ended (Ok _) st') =>
              (* [await proc.wait()]: the exit status is not looked at *)
              if send_commit
              then let (r, st'') := send_commit_event st' in
                   Some (Ended r st'')
              else Some (Ended (Ok tt) st')
          | other => other
          end
      end
  end.

(** The audio frames a connection received, in order: the payload of every
    append event among the text frames sent on it. *)
Definition frame_of (text : string) : option (list byte) :=
  match json_loads text with
  | Some (JObj d) =>
      if eq_str (dict_get d "type" JNull) "input_audio_buffer.append" then
        match dict_get d "audio" JNull with
        | JStr a => b64decode a
        | _ => None
        end
      else None
  | _ => None
  end.

Fixpoint frames_of (texts : list string) : list (list byte) :=
  match texts with
  | [] => []
  | t :: r =>
      match frame_of t with
      | Some f => f :: frames_of r
      | None => frames_of r
      end
  end.

(** ** The batch call, [whisper_transcription.translate_audio] *)

(** What the call depends on: the file system and the service. *)
Record batch_env : Type := {
  os_path_exists : string -> bool;
  open_rb : string -> result (list byte);
  (* [client.audio.translations.create(model="whisper-1", ...).text] *)
  translations_create : list byte -> string -> result string
}.

Definition translate_audio (env : batch_env) (file_path prompt : string)
  : result string :=
  if negb (os_path_exists env file_path) then
    Ok ("Error: Audio file not found at " ++ file_path)
  else
    match open_rb env file_path with
    | Raise e => Ok ("An error occurred: " ++ exn_str e)
    | Ok audio_file =>
        match translations_create env audio_file prompt with
        | Ok text => Ok text
        | Raise e => Ok ("An error occurred: " ++ exn_str e)
        end
    end.

(** ** Dispatching a sequence of events *)


Definition completed_type : string :=
  "conversation.item.input_audio_transcription.completed".
Definition failed_type : string :=
  "conversation.item.input_audio_transcription.failed".

(** The [type] and [transcript] of an event, as the handler reads them. *)
Definition type_of (d : dict) : json := dict_get d "type" (JStr "").
Definition transcript_of (d : dict) : json := dict_get d "transcript" (JStr "").

Definition text_frame (data : string) : WSMessage :=
  {| msg_type := TEXT; msg_data := data |}.

(** The state after [lines] were printed and [entries] were appended to the
    transcript buffer. *)
Definition record_events (entries : list json) (lines : list console_line)
    (st : state) : state :=
  {| api_key := api_key st; websocket := websocket st; session := session st;
     is_recording := is_recording st;
     transcription_buffer := transcription_buffer st ++ entries;
     conns := conns st; sessions := sessions st;
     console := console st ++ lines; slept := slept st |}.

(** ** Sample inputs *)

(** A transcriber whose [connect] succeeded. *)
Definition connected_state : state :=
  snd (connect (Ok tt) false (init "sk-test")).

(** CPython with its defaults: a recursion limit of 1000, a few frames of
    which are in use when the receive loop calls [json.loads], and 4300
    digits. *)
Definition cpython : interpreter :=
  {| recursion_room := 994; max_str_digits := 4300 |}.

(** Events as the service sends them. *)
Definition completed_event (n : Z) (transcript : json) : json :=
  JObj [("type", JStr completed_type);
        ("event_id", JStr "event_2122");
        ("item_id", JStr "item_003");
        ("content_index", JInt n);
        ("transcript", transcript)].

Definition no_transcript_event : dict :=
  [("type", JStr completed_type);
   ("event_id", JStr "event_2125");
   ("item_id", JStr "item_006");
   ("content_index", JInt 0)].

Definition api_error_event : dict :=
  [("type", JStr "error");
   ("event_id", JStr "event_890");
   ("error",
    JObj [("type", JStr "invalid_request_error");
          ("code", JStr "invalid_event");
          ("message", JStr "The type field is missing.");
          ("param", JNull)])].

Definition failed_event : dict :=
  [("type", JStr failed_type);
   ("item_id", JStr "item_007");
   ("content_index", JInt 0);
   ("error",
    JObj [("type", JStr "transcription_error");
          ("code", JStr "audio_unintelligible");
          ("message", JStr "The audio could not be transcribed.")])].

Definition hello_frame : string :=
  json_dumps (completed_event 0 (JStr "hello")).
Definition world_frame : string :=
  json_dumps (completed_event 1 (JStr "world")).
Definition empty_frame : string :=
  json_dumps (completed_event 2 (JStr EmptyString)).
Definition api_error_frame : string := json_dumps (JObj api_error_event).
Definition failed_frame : string := json_dumps (JObj failed_event).
Definition garbage_frame : string := "{type: error, ".








(** A character that [json.dumps] writes as it is and [json.loads] reads as
    it is: printable ASCII other than the quote and the backslash. *)
Definition plain (c : ascii) : bool :=
  ((32 <=? code c) && (code c <=? 126)
   && negb (code c =? 34) && negb (code c =? 92))%N.

Fixpoint plain_string (s : string) : bool :=
  match s with
  | EmptyString => true
  | String c r => plain c && plain_string r
  end.

(** Hosts and decoder runs. *)
Definition pcm (n : nat) : list byte :=
  map (fun i => byte_of (N.of_nat i mod 256)) (seq 0 n).

(** [ffmpeg] writes 4096 bytes, two chunks of samples; each of the first
    three reads is served when 1000 bytes are buffered. *)
Definition short_read_host : host :=
  {| which_ffmpeg := Some "/usr/bin/ffmpeg";
     path_exists := fun _ => true;
     create_subprocess_exec := fun _ =>
       Ok {| script := [Out (pcm 4096)]; arrivals := [1000; 1000; 1000];
            returncode := 0 |};
     stderr_room := 65536 |}.



(** The text frames sent on the transcriber's websocket. *)
Definition sent_on_websocket (st : state) : list string :=
  match websocket st with
  | Some w =>
      match nth_error (conns st) w with
      | Some c => sent c
      | None => []
      end
  | None => []
  end.

Definition open_connections (st : state) : nat :=
  List.length (filter (fun c => negb (closed c)) (conns st)).

(** The connections as [connect] leaves those that were there before: the
    one the transcriber held is closed when the run time has finalised
    it. *)
Definition dropped (collected : bool) (st : state) : list connection :=
  match websocket st with
  | Some old =>
      if collected then list_update (conns st) old close_connection
      else conns st
  | None => conns st
  end.

(** Batch environments. *)
Definition no_file_env : batch_env :=
  {| os_path_exists := fun _ => false;
     open_rb := fun _ => Raise (OSError "No such file or directory");
     translations_create := fun _ _ => Raise (APIError "Connection error.") |}.

Definition service_down_env : batch_env :=
  {| os_path_exists := fun _ => true;
     open_rb := fun _ => Ok (pcm 16);
     translations_create := fun _ _ => Raise (APIError "Connection error.") |}.

(** The service answers with a text that reads like the message of a
    missing file. *)
Definition echo_env : batch_env :=
  {| os_path_exists := fun _ => true;
     open_rb := fun _ => Ok (pcm 16);
     translations_create := fun _ _ =>
       Ok "Error: Audio file not found at test/test1-paris.m4a" |}.

(** How a run of [stream_file] ended, if it did, and the state it left or
    hangs in. *)
Definition outcome (r : option run) : option (result unit) :=
  match r with
  | Some (Ended x _) => Some x
  | _ => None
  end.

Definition final_state (r : option run) (st : state) : state :=
  match r with
  | Some (Ended _ st') => st'
  | Some (Blocked st') => st'
  | None => st
  end.

(** The chunks the successive reads of [stream_file] return, up to the end
    of the decoder output. *)
Fixpoint reads (fuel : nat) (pending : list byte) (arr : list nat)
  : list (list byte) :=
  match fuel with
  | O => []
  | S fuel' =>
      match read chunk_bytes pending arr with
      | ([], _) => []
      | (data, (pending', arr')) => data :: reads fuel' pending' arr'
      end
  end.

(** The transcriber holds a websocket that is not closed. *)
Definition is_open (st : state) : bool :=
  match websocket st with
  | Some w => negb (ws_closed w st)
  | None => false
  end.

(** Every frame has [n] bytes, but for the last one, which has at least one
    and at most [n]. *)
Fixpoint full_but_last (n : nat) (frames : list (list byte)) : Prop :=
  match frames with
  | [] => True
  | x :: rest =>
      match rest with
      | [] => 0 < List.length x <= n
      | _ :: _ => List.length x = n /\ full_but_last n rest
      end
  end.

(** ** Effects on the wire *)

(** The chunks the reads of [stream_file] return when [output] reaches the
    standard output of the decoder. *)
Definition chunks (output : list byte) (arr : list nat) : list (list byte) :=
  reads (S (List.length output)) output arr.

(** The chunks read from a decoder that runs to its end. *)
Definition frames_read (proc : process) : list (list byte) :=
  chunks (stdout proc) (arrivals proc).

(** The decoder does not hang in a write to its standard error. *)
Definition runs_to_end (h : host) (proc : process) : bool :=
  negb (snd (written (stderr_room h) (script proc))).

Definition append_sent (texts : list string) (c : connection) : connection :=
  {| closed := closed c; sent := (sent c ++ texts)%list |}.

(** The state after [texts] were sent on the transcriber's websocket,
    [pauses] were slept and [lines] were printed. *)
Definition wire (texts : list string) (pauses : list Q)
    (lines : list console_line) (st : state) : state :=
  {| api_key := api_key st; websocket := websocket st; session := session st;
     is_recording := is_recording st;
     transcription_buffer := transcription_buffer st;
     conns :=
       match websocket st with
       | Some w => list_update (conns st) w (append_sent texts)
       | None => conns st
       end;
     sessions := sessions st;
     console := (console st ++ lines)%list;
     slept := (slept st ++ pauses)%list |}.

(** The exception [send_str] meets when the commit event cannot be sent. *)
Definition commit_error (st : state) : exn :=
  match websocket st with
  | Some _ => ClientError "Cannot write to closing transport"
  | None => AttributeError "'NoneType' object has no attribute 'send_str'"
  end.

(** ** The capture device and the life cycle of the transcriber *)

(** What the life-cycle methods print. *)
Inductive lifecycle_line : Type :=
| AudioCaptureInitialized
| FailedToInitializeAudio (e : exn)
| ErrorInAudioCapture (e : exn)
| RecordingStarted
| RecordingStopped
| CleanupCompleted.

(** What the life-cycle methods do to the world outside the websockets, in
    order: calls on the capture device, client sessions closed, lines
    printed. *)
Inductive lifecycle_event : Type :=
| PyAudioCreated
| StreamOpened
| StreamRead
| StreamStopped
| StreamClosed
| PyAudioTerminated
| SessionClosed (s : nat)
| Said (l : lifecycle_line).

(** The transcriber with its capture attributes: whether
    [self.pyaudio_instance] and [self.audio_stream] are set. *)
Record recorder : Type := {
  core : state;
  pyaudio_instance : bool;
  audio_stream : bool;
  trace : list lifecycle_event
}.

Definition new_recorder (key : string) : recorder :=
  {| core := init key; pyaudio_instance := false; audio_stream := false;
     trace := [] |}.

(** How the audio side of the machine answers [setup_audio]: whether the
    [pyaudio] module was imported, and what creating the instance and
    opening the input stream do. *)
Record audio_host : Type := {
  pyaudio_module : bool;
  new_pyaudio : result unit;
  open_stream : result unit
}.

(** How the capture device answers the calls of [stop_recording] and
    [cleanup]. *)
Record device : Type := {
  stop_stream : result unit;
  close_stream : result unit;
  terminate : result unit
}.

Definition R (A : Type) : Type := recorder -> result A * recorder.

Definition retR {A} (a : A) : R A := fun r => (Ok a, r).
Definition raiseR {A} (e : exn) : R A := fun r => (Raise e, r).
Definition bindR {A B} (m : R A) (k : A -> R B) : R B :=
  fun r =>
    match m r with
    | (Ok a, r') => k a r'
    | (Raise e, r') => (Raise e, r')
    end.
Definition try_exceptR {A} (m : R A) (h : exn -> R A) : R A :=
  fun r =>
    match m r with
    | (Ok a, r') => (Ok a, r')
    | (Raise e, r') => h e r'
    end.

Declare Scope recorder_scope.
Delimit Scope recorder_scope with rec.
Notation "x <- c1 ;; c2" := (bindR c1 (fun x => c2))
  (at level 61, c1 at next level, right associativity) : recorder_scope.
Notation "c1 ;; c2" := (bindR c1 (fun _ => c2))
  (at level 61, right associativity) : recorder_scope.

Definition set_core (st : state) (r : recorder) : recorder :=
  {| core := st; pyaudio_instance := pyaudio_instance r;
     audio_stream := audio_stream r; trace := trace r |}.

(** A method of the websocket side run on the transcriber. *)
Definition lift {A} (m : M A) : R A :=
  fun r => let (a, st) := m (core r) in (a, set_core st r).

Definition record (ev : lifecycle_event) : R unit :=
  fun r =>
    (Ok tt,
     {| core := core r; pyaudio_instance := pyaudio_instance r;
        audio_stream := audio_stream r; trace := (trace r ++ [ev])%list |}).

(** [print] on the life-cycle side: the same console, so the same
    [UnicodeEncodeError] when the message of an exception cannot be
    encoded. *)
Definition unsayable (l : lifecycle_line) : option exn :=
  match l with
  | FailedToInitializeAudio e => encode_error 30 (utf8_decode (exn_str e))
  | ErrorInAudioCapture e => encode_error 27 (utf8_decode (exn_str e))
  | _ => None
  end.

Definition say (l : lifecycle_line) : R unit :=
  match unsayable l with
  | Some e => raiseR e
  | None => record (Said l)
  end.

(** A call on the capture device: it is recorded when it returns. *)
Definition device_call (answer : result unit) (ev : lifecycle_event)
  : R unit :=
  match answer with
  | Ok _ => record ev
  | Raise e => raiseR e
  end.

Definition set_is_recording (b : bool) (st : state) : state :=
  {| api_key := api_key st; websocket := websocket st; session := session st;
     is_recording := b;
     transcription_buffer := transcription_buffer st;
     conns := conns st; sessions := sessions st; console := console st;
     slept := slept st |}.

Definition setup_audio (a : audio_host) : R unit :=
  (if negb (pyaudio_module a) then
     raiseR (RuntimeError
               "pyaudio not available; microphone capture disabled. Install pyaudio to use mic.")
   else
     device_call (new_pyaudio a) PyAudioCreated ;;
     (fun r =>
        (Ok tt,
         {| core := core r; pyaudio_instance := true;
            audio_stream := audio_stream r; trace := trace r |})) ;;
     try_exceptR
       (device_call (open_stream a) StreamOpened ;;
        (fun r =>
           (Ok tt,
            {| core := core r; pyaudio_instance := pyaudio_instance r;
               audio_stream := true; trace := trace r |})) ;;
        say AudioCaptureInitialized)
       (fun e => say (FailedToInitializeAudio e) ;; raiseR e))%rec.

(** One turn of the [while self.is_recording] loop of
    [_audio_capture_loop]; [tick] is what [self.audio_stream.read] answers
    if it is called in this turn. *)
Definition capture_turn (tick : result (list byte)) : R unit :=
  try_exceptR
    ((fun r =>
        if audio_stream r then
          match tick with
          | Raise e => (Raise e, r)
          | Ok audio_data =>
              (record StreamRead ;;
               lift (fun st =>
                       if is_open st
                       then _send_audio_data (audio_event audio_data) st
                       else (Ok tt, st)))%rec r
          end
        else (Ok tt, r)) ;;
     lift (sleep (1 # 100)))%rec
    (fun e => say (ErrorInAudioCapture e) ;; lift (sleep (1 # 10)))%rec.

(** [_audio_capture_loop], over the turns it makes: the loop is left when
    [is_recording] is found false, and the end of [ticks] is the point
    where [stop_recording] cleared it. *)
Fixpoint _audio_capture_loop (ticks : list (result (list byte))) : R unit :=
  match ticks with
  | [] => retR tt
  | tick :: rest =>
      fun r =>
        if is_recording (core r)
        then (capture_turn tick ;; _audio_capture_loop rest)%rec r
        else (Ok tt, r)
  end.


Definition stop_recording (d : device) : R unit :=
  (lift (modify (set_is_recording false)) ;;
   (fun r =>
      if audio_stream r then device_call (stop_stream d) StreamStopped r
      else (Ok tt, r)) ;;
   say RecordingStopped)%rec.

(** [await self.websocket.close()] *)
Definition close_websocket (w : nat) : M unit :=
  modify (fun st =>
            set_conns
              (list_update (conns st) w
                 (fun c => {| closed := true; sent := sent c |})) st).

Definition cleanup (d : device) : R unit :=
  (stop_recording d ;;
   lift (fun st =>
           match websocket st with
           | Some w =>
               if negb (ws_closed w st) then close_websocket w st
               else (Ok tt, st)
           | None => (Ok tt, st)
           end) ;;
   (fun r =>
      match session (core r) with
      | Some s => record (SessionClosed s) r
      | None => (Ok tt, r)
      end) ;;
   (fun r =>
      if audio_stream r then device_call (close_stream d) StreamClosed r
      else (Ok tt, r)) ;;
   (fun r =>
      if pyaudio_instance r then device_call (terminate d) PyAudioTerminated r
      else (Ok tt, r)) ;;
   say CleanupCompleted)%rec.

(** ** Typing a transcription, [LexiconicApp.handle_auto_paste] *)

(** [s.replace(old, new)] for a pattern [old] of one character. *)
Fixpoint replace_char (old : ascii) (new : string) (s : string) : string :=
  match s with
  | EmptyString => EmptyString
  | String c r =>
      if (c =? old)%char then new ++ replace_char old new r
      else String c (replace_char old new r)
  end.

Definition newline : ascii := "010"%char.

(** [escaped_text] *)
Definition escaped_text (new_content : string) : string :=
  replace_char newline (String backslash "n")
    (replace_char dquote (String backslash (String dquote EmptyString))
       (replace_char backslash (String backslash (String backslash EmptyString))
          new_content)).

(** The script handed to [osascript]:
    [tell application "System Events" to keystroke "<escaped_text>"]. *)
Definition keystroke_head : string :=
  "tell application " ++ String dquote ("System Events" ++ String dquote
    " to keystroke ").

Definition applescript (new_content : string) : string :=
  keystroke_head
    ++ String dquote (escaped_text new_content ++ String dquote EmptyString).

(** How AppleScript reads the body of a string literal, after its opening
    quote: up to the first quote that is not escaped, with the escapes for
    the backslash, the quote, line feed, carriage return and tab. *)
Fixpoint read_literal (s : string) : option (string * string) :=
  match s with
  | EmptyString => None
  | String c r =>
      if (c =? dquote)%char then Some (EmptyString, r)
      else if (c =? backslash)%char then
        match r with
        | EmptyString => None
        | String e r' =>
            let unescaped :=
              if (e =? backslash)%char then Some backslash
              else if (e =? dquote)%char then Some dquote
              else if (e =? "n")%char then Some newline
              else if (e =? "r")%char then Some "013"%char
              else if (e =? "t")%char then Some "009"%char
              else None in
            match unescaped, read_literal r' with
            | Some ch, Some (body, rest) => Some (String ch body, rest)
            | _, _ => None
            end
        end
      else
        match read_literal r with
        | Some (body, rest) => Some (String c body, rest)
        | None => None
        end
  end.

(** The event types [_handle_response] has a branch for. *)
Definition known_types : list string :=
  ["session.created";
   "input_audio_buffer.speech_started";
   "input_audio_buffer.speech_stopped";
   completed_type;
   failed_type;
   "error"]%list.

(** A run of the decoder on a file that is there: 5000 bytes, all buffered
    before each read. *)
Definition buffered_host : host :=
  {| which_ffmpeg := Some "/usr/bin/ffmpeg";
     path_exists := fun _ => true;
     create_subprocess_exec := fun _ =>
       Ok {| script := [Out (pcm 5000)]; arrivals := []%list;
            returncode := 0 |};
     stderr_room := 65536 |}.

(** The core of the transcriber after [cleanup]: not recording, and the
    websocket it holds closed. *)
Definition released (st : state) : state :=
  let st0 := set_is_recording false st in
  match websocket st with
  | Some w =>
      if negb (ws_closed w st)
      then set_conns (list_update (conns st) w close_connection) st0
      else st0
  | None => st0
  end.



(** A decoder that warns at length, on a machine whose pipes take 4 KiB:
    3000 bytes of output, then 5000 bytes of error text, then 2000 more
    bytes of output. *)
Definition noisy_proc : process :=
  {| script := [Out (pcm 3000); Err (repeat_char "w" 5000);
                Out (pcm 2000)]%list;
     arrivals := []%list; returncode := 0 |}.

Definition noisy_host : host :=
  {| which_ffmpeg := Some "/usr/bin/ffmpeg";
     path_exists := fun _ => true;
     create_subprocess_exec := fun _ => Ok noisy_proc;
     stderr_room := 4096 |}.

(** A capture device that answers every call. *)
Definition good_device : device :=
  {| stop_stream := Ok tt; close_stream := Ok tt; terminate := Ok tt |}.




(** [len(s)] and [s[n:]] count code points. *)
Definition py_len (s : string) : nat := List.length (utf8_decode s).

Fixpoint encode_all (cps : list N) : string :=
  match cps with
  | []%list => EmptyString
  | (cp :: rest)%list => utf8_encode cp ++ encode_all rest
  end.

Definition py_from (n : nat) (s : string) : string :=
  encode_all (skipn n (utf8_decode s)).

(** [needle in s] *)
Fixpoint contains (needle s : string) : bool :=
  match strip_prefix needle s with
  | Some _ => true
  | None =>
      match s with
      | EmptyString => false
      | String _ r => contains needle r
      end
  end.

(** What [subprocess.run(..., capture_output=True, text=True)] returns. *)
Record completed : Type := {
  run_returncode : Z;
  run_stdout : string;
  run_stderr : string
}.

Inductive paste_line : Type :=
| SkippingAutoPaste (frontmost_app : string)
| AutoPasteFailed (stderr : string)
| ErrorInAutoPaste (e : exn).

(** The part of [LexiconicApp] that [handle_auto_paste] works on, with the
    scripts handed to [osascript] and the lines printed. *)
Record paste_state : Type := {
  last_pasted_length : nat;
  scripts_run : list string;
  paste_console : list paste_line
}.

Definition check_app_script : string :=
  "tell application " ++ String dquote ("System Events" ++ String dquote
    " to get name of first application process whose frontmost is true").

Definition skip_apps : list string :=
  ["Terminal"; "iTerm"; "iTerm2"; "Windsurf"; "Visual Studio Code"; "Xcode";
   "PyCharm"]%list.

Section AutoPaste.

  (** [str.strip()] and [str.lower()], which follow the Unicode tables. *)
Variable strip : string -> string.
Variable lower : string -> string.

  (** [handle_auto_paste]; [frontmost] and [keystroke] are what the two
      calls of [subprocess.run] answer when they are made. *)
Definition handle_auto_paste (frontmost keystroke : result completed)
      (transcription : string) (s : paste_state) : paste_state :=
    let done (scripts : list string) (lines : list paste_line) :=
      {| last_pasted_length := py_len transcription;
         scripts_run := scripts_run s ++ scripts;
         paste_console := paste_console s ++ lines |}%list in
    if (last_pasted_length s <? py_len transcription)%nat then
      let new_content := py_from (last_pasted_length s) transcription in
      if (py_len (strip new_content) <? 2)%nat then done []%list []%list
      else
        match frontmost with
        | Raise e => done [check_app_script]%list [ErrorInAutoPaste e]%list
        | Ok result =>
            let frontmost_app := strip (run_stdout result) in
            if (run_returncode result =? 0)%Z
               && existsb (fun app => contains (lower app) (lower frontmost_app))
                    skip_apps
            then done [check_app_script]%list
                   [SkippingAutoPaste frontmost_app]%list
            else
              match keystroke with
              | Raise e =>
                  done [check_app_script; applescript new_content]%list
                    [ErrorInAutoPaste e]%list
              | Ok result2 =>
                  if (run_returncode result2 =? 0)%Z then
                    done [check_app_script; applescript new_content]%list
                      []%list
                  else
                    {| last_pasted_length := last_pasted_length s;
                       scripts_run :=
                         (scripts_run s
                            ++ [check_app_script; applescript new_content])%list;
                       paste_console :=
                         (paste_console s
                            ++ [AutoPasteFailed (run_stderr result2)])%list |}
              end
        end
    else s.

End AutoPaste.

(** [strip] and [lower] on ASCII text. *)
Fixpoint ascii_lstrip (s : string) : string :=
  match s with
  | EmptyString => EmptyString
  | String c r =>
      if ((code c =? 32) || ((9 <=? code c) && (code c <=? 13))
          || ((28 <=? code c) && (code c <=? 31)))%N
      then ascii_lstrip r else s
  end.

Fixpoint string_rev (acc s : string) : string :=
  match s with
  | EmptyString => acc
  | String c r => string_rev (String c acc) r
  end.

Definition ascii_strip (s : string) : string :=
  string_rev EmptyString
    (ascii_lstrip (string_rev EmptyString (ascii_lstrip s))).

Fixpoint ascii_lower (s : string) : string :=
  match s with
  | EmptyString => EmptyString
  | String c r =>
      String (if ((65 <=? code c) && (code c <=? 90))%N
              then chr (code c + 32) else c)
        (ascii_lower r)
  end.

Definition front_safari : result completed :=
  Ok {| run_returncode := 0; run_stdout := "Safari"; run_stderr := "" |}.
Definition typed_ok : result completed :=
  Ok {| run_returncode := 0; run_stdout := ""; run_stderr := "" |}.

(** * Properties *)

Local Open Scope list_scope.

(** ** What the console can show *)

Lemma below (n : nat) (P : N -> bool) :
  forallb P (map N.of_nat (seq 0 n)) = true ->
  forall k, (k < N.of_nat n)%N -> P k = true.
Proof.
  intros H k Hk. rewrite forallb_forall in H. apply H.
  rewrite <- (N2Nat.id k). apply in_map. apply in_seq. lia.
Qed.

Lemma ascii_text_app (a b : string) :
  ascii_text (a ++ b)%string = ascii_text a && ascii_text b.
Proof.
  induction a as [ | c a IH ]; [ reflexivity | ].
  cbn [String.append ascii_text]. now rewrite IH, andb_assoc.
Qed.

Lemma ascii_text_uint (u : Decimal.uint) :
  ascii_text (NilEmpty.string_of_uint u) = true.
Proof. induction u; cbn; try reflexivity; exact IHu. Qed.

Lemma ascii_text_N_to_dec (n : N) : ascii_text (N_to_dec n) = true.
Proof. apply ascii_text_uint. Qed.

Lemma ascii_hex_digit (n : N) :
  (n < 16)%N -> (code (hex_digit n) <? 128)%N = true.
Proof.
  apply (below 16 (fun k => (code (hex_digit k) <? 128)%N)).
  vm_compute. reflexivity.
Qed.

Lemma ascii_text_hex4 (n : N) : ascii_text (hex4 n) = true.
Proof.
  unfold hex4. cbn [ascii_text].
  rewrite !ascii_hex_digit by (apply N.mod_lt; discriminate).
  reflexivity.
Qed.

(** The message of the [UnicodeEncodeError] is itself plain ASCII. *)
Lemma encode_error_ascii (cps : list N) :
  forall (pos : nat) (e : exn),
    encode_error pos cps = Some e -> ascii_text (exn_str e) = true.
Proof.
  induction cps as [ | cp rest IH ]; intros pos e; cbn [encode_error];
    [ discriminate | ].
  destruct (is_surrogate cp); [ | apply IH ].
  intros [= <-]. cbn [exn_str].
  destruct (surrogate_run rest);
    repeat (rewrite ?ascii_text_app; cbn [ascii_text]);
    rewrite ?ascii_text_N_to_dec;
    rewrite ?ascii_hex_digit by (apply N.mod_lt; discriminate);
    reflexivity.
Qed.

Lemma encode_error_none (cps : list N) :
  forall pos : nat,
    forallb (fun cp => negb (is_surrogate cp)) cps = true ->
    encode_error pos cps = None.
Proof.
  induction cps as [ | cp rest IH ]; intros pos; cbn; [ reflexivity | ].
  destruct (is_surrogate cp); cbn; [ discriminate | apply IH ].
Qed.


Lemma ascii_text_encodable (s : string) :
  ascii_text s = true -> encodable s = true.
Proof.
  unfold encodable. induction s as [ | a r IH ]; [ reflexivity | ].
  cbn [ascii_text utf8_decode]. intros H. apply andb_prop in H as [ Ha Hr ].
  apply N.ltb_lt in Ha.
  destruct (N.ltb_spec (code a) 192) as [ _ | Hge ]; [ | lia ].
  cbn [forallb]. rewrite (IH Hr), andb_true_r.
  unfold is_surrogate. destruct (N.leb_spec 55296 (code a)); [ lia | reflexivity ].
Qed.

(** A line whose interpolated text can be encoded is printed; a line that
    cannot be printed raises, and the message of what it raises is ASCII. *)
Lemma printable_line (l : console_line) (before : nat) (text : string) :
  interpolated l = Some (before, text) -> encodable text = true ->
  unprintable l = None.
Proof.
  intros Hl He. unfold unprintable. rewrite Hl. now apply encode_error_none.
Qed.

Lemma unprintable_ascii (l : console_line) (e : exn) :
  unprintable l = Some e -> ascii_text (exn_str e) = true.
Proof.
  unfold unprintable. destruct (interpolated l) as [ [ before text ] | ];
    [ apply encode_error_ascii | discriminate ].
Qed.

(** ** The dispatcher *)

Lemma record_events_nil (st : state) : record_events [] [] st = st.
Proof. destruct st; unfold record_events; cbn. now rewrite !app_nil_r. Qed.

Lemma record_events_compose (e1 e2 : list json) (l1 l2 : list console_line)
    (st : state) :
  record_events e2 l2 (record_events e1 l1 st)
  = record_events (e1 ++ e2) (l1 ++ l2) st.
Proof. unfold record_events; cbn. now rewrite !app_assoc. Qed.

Lemma print_record (l : console_line) (st : state) :
  unprintable l = None -> print l st = (Ok tt, record_events [] [l] st).
Proof.
  intros H. unfold print. rewrite H.
  unfold modify, record_events, set_console; cbn. now rewrite app_nil_r.
Qed.

Lemma print_raises (l : console_line) (e : exn) (st : state) :
  unprintable l = Some e -> print l st = (Raise e, st).
Proof. intros H. unfold print. now rewrite H. Qed.

(** [print] either adds its line or raises, the same in every state. *)
Lemma print_shape (l : console_line) :
  exists (r : result unit) lines,
    (forall st, print l st = (r, record_events [] lines st)) /\ harmless r.
Proof.
  destruct (unprintable l) as [ e | ] eqn:E.
  - exists (Raise e), []. split.
    + intros st. rewrite record_events_nil. now apply print_raises.
    + now apply (unprintable_ascii l).
  - exists (Ok tt), [l]. split; [ intros st; now apply print_record | exact I ].
Qed.

Lemma buffer_append_record (x : json) (lines : list console_line)
    (st : state) :
  buffer_append x (record_events [] lines st)
  = (Ok tt, record_events [x] lines st).
Proof.
  unfold buffer_append, modify, record_events, set_transcription_buffer.
  cbn. now rewrite app_nil_r.
Qed.

Lemma handle_non_dict (data : json) (st : state) :
  (forall d, data <> JObj d) ->
  exists msg, _handle_response data st = (Raise (AttributeError msg), st).
Proof.
  intros H. destruct data; try (eexists; reflexivity).
  exfalso. now apply (H members).
Qed.

Lemma handle_completed (d : dict) (st : state) :
  type_of d = JStr completed_type ->
  _handle_response (JObj d) st =
    if truthy (transcript_of d) then
      match unprintable (Transcription (transcript_of d)) with
      | Some e => (Raise e, st)
      | None =>
          (Ok tt, record_events [transcript_of d]
                    [Transcription (transcript_of d)] st)
      end
    else (Ok tt, st).
Proof.
  intros H. unfold _handle_response, bind, py_get, ret.
  fold (type_of d). rewrite H. cbn -[print].
  fold (transcript_of d). destruct (truthy (transcript_of d)); [ | reflexivity ].
  destruct (unprintable (Transcription (transcript_of d))) as [ e | ] eqn:E.
  - now rewrite (print_raises _ e).
  - rewrite print_record by exact E. apply buffer_append_record.
Qed.

(** What the handler does is decided by the event alone: it prints some
    lines and appends some entries, whatever the state, and what it raises
    can be printed. *)
Lemma handle_response_shape (data : json) :
  exists r entries lines,
    (forall st, _handle_response data st = (r, record_events entries lines st))
    /\ harmless r.
Proof.
  destruct data as [ | b | z | f | s | items | d ];
    try (eexists (Raise (AttributeError _)), [], []; split;
         [ intros st; rewrite record_events_nil; reflexivity | reflexivity ]).
  unfold _handle_response, bind, py_get, ret.
  repeat match goal with
         | |- context [if eq_str ?x ?y then _ else _] =>
             destruct (eq_str x y)
         end;
    try match goal with
        | |- context [print ?l] =>
            destruct (print_shape l) as (r & lines & H & Hh);
            exists r, [], lines; split; [ exact H | exact Hh ]
        end.
  - destruct (truthy (dict_get d "transcript" (JStr ""))).
    + destruct (print_shape (Transcription (dict_get d "transcript" (JStr ""))))
        as (r & lines & H & Hh).
      destruct r as [ [] | e ].
      * eexists (Ok tt), [_], lines. split; [ | exact I ].
        intros st. rewrite H. apply buffer_append_record.
      * exists (Raise e), [], lines. split; [ | exact Hh ].
        intros st. now rewrite H.
    + exists (Ok tt), [], []. split; [ | exact I ].
      intros st. now rewrite record_events_nil.
  - exists (Ok tt), [], []. split; [ | exact I ].
    intros st. now rewrite record_events_nil.
Qed.



(** *** What [json.loads] gives up with *)

Lemma parse_number_gave_up (cfg : scanner) (s : string) (e : exn) :
  parse_number cfg s = GaveUp e -> ascii_text (exn_str e) = true.
Proof.
  unfold parse_number.
  destruct (numeral s) as [ [ [ [ [ neg ip ] fp ] ex ] rest ] | ];
    [ | discriminate ].
  destruct fp; [ destruct ex | ]; try discriminate.
  unfold digits_refused.
  destruct ((0 <? int_max_str_digits cfg)%nat
            && (int_max_str_digits cfg <? String.length ip)%nat);
    [ | discriminate ].
  intros [= <-]. cbn [exn_str].
  repeat (rewrite ?ascii_text_app; cbn [ascii_text]).
  rewrite !ascii_text_N_to_dec. reflexivity.
Qed.

Lemma parse_literal_gave_up (cfg : scanner) (s : string) (e : exn) :
  parse_literal cfg s = GaveUp e -> ascii_text (exn_str e) = true.
Proof.
  unfold parse_literal.
  repeat match goal with
         | |- context [match ?x with Some _ => _ | None => _ end] =>
             destruct x; try discriminate
         end.
  apply parse_number_gave_up.
Qed.

Lemma parse_gave_up (cfg : scanner) (fuel : nat) :
  (forall depth s e,
     parse_value cfg fuel depth s = GaveUp e -> ascii_text (exn_str e) = true)
  /\ (forall depth s acc e,
        parse_elements cfg fuel depth s acc = GaveUp e ->
        ascii_text (exn_str e) = true)
  /\ (forall depth s acc e,
        parse_members cfg fuel depth s acc = GaveUp e ->
        ascii_text (exn_str e) = true).
Proof.
  induction fuel as [ | fuel (IHv & IHe & IHm) ];
    [ repeat split; intros; discriminate | ].
  split; [ | split ].
  - intros depth s e. cbn [parse_value].
    destruct s as [ | c r ]; [ discriminate | ].
    destruct (c =? dquote)%char.
    { destruct (parse_string r) as [ [ t rest ] | ]; discriminate. }
    destruct (c =? "{")%char.
    { destruct depth as [ | depth' ]; [ intros [= <-]; reflexivity | ].
      destruct (skip_ws r) as [ | c1 r1 ]; [ discriminate | ].
      destruct (c1 =? "}")%char; [ discriminate | apply IHm ]. }
    destruct (c =? "[")%char.
    { destruct depth as [ | depth' ]; [ intros [= <-]; reflexivity | ].
      destruct (skip_ws r) as [ | c1 r1 ]; [ discriminate | ].
      destruct (c1 =? "]")%char; [ discriminate | apply IHe ]. }
    apply parse_literal_gave_up.
  - intros depth s acc e. cbn [parse_elements].
    destruct (parse_value cfg fuel depth s) as [ [ v r ] | | e' ] eqn:Ev;
      [ | discriminate | intros [= <-]; now apply (IHv depth s) ].
    destruct (skip_ws r) as [ | c r1 ]; [ discriminate | ].
    destruct (c =? ",")%char; [ apply IHe | ].
    destruct (c =? "]")%char; discriminate.
  - intros depth s acc e. cbn [parse_members].
    destruct s as [ | q r ]; [ discriminate | ].
    destruct (q =? dquote)%char; [ | discriminate ].
    destruct (parse_string r) as [ [ key r1 ] | ]; [ | discriminate ].
    destruct (skip_ws r1) as [ | c r2 ]; [ discriminate | ].
    destruct (c =? ":")%char; [ | discriminate ].
    destruct (parse_value cfg fuel depth (skip_ws r2)) as [ [ v r3 ] | | e' ]
      eqn:Ev; [ | discriminate | intros [= <-]; now apply (IHv depth (skip_ws r2)) ].
    destruct (skip_ws r3) as [ | c' r4 ]; [ discriminate | ].
    destruct (c' =? ",")%char; [ apply IHm | ].
    destruct (c' =? "}")%char; discriminate.
Qed.

Lemma json_loads_gave_up (py : interpreter) (s : string) (e : exn) :
  json_loads_on py s = GaveUp e -> ascii_text (exn_str e) = true.
Proof.
  unfold json_loads_on, scan.
  match goal with
  | |- context [parse_value ?cfg ?fuel ?depth ?t] =>
      destruct (parse_value cfg fuel depth t) as [ [ v rest ] | | e' ] eqn:E
  end.
  - destruct (skip_ws rest); discriminate.
  - discriminate.
  - intros [= <-]. eapply (proj1 (parse_gave_up _ _)). exact E.
Qed.

(** *** The receive loop *)

Lemma listen_loop_shape (py : interpreter) (msgs : list WSMessage) :
  exists r entries lines,
    (forall st, listen_loop py msgs st = (r, record_events entries lines st))
    /\ harmless r.
Proof.
  induction msgs as [ | msg rest IH ].
  - exists (Ok Exhausted), [], []. split; [ | exact I ]. intros st. cbn.
    unfold ret. now rewrite record_events_nil.
  - destruct IH as (r2 & e2 & l2 & H2 & Hh2). cbn [listen_loop].
    destruct (msg_type msg);
      try (exists r2, e2, l2; split; [ exact H2 | exact Hh2 ]).
    + destruct (json_loads_on py (msg_data msg)) as [ data | | e ] eqn:El.
      * destruct (handle_response_shape data) as (r1 & e1 & l1 & H1 & Hh1).
        destruct r1 as [ [] | e ].
        -- exists r2, (e1 ++ e2)%list, (l1 ++ l2)%list.
           split; [ | exact Hh2 ]. intros st. unfold bind.
           rewrite H1, H2. now rewrite record_events_compose.
        -- exists (Raise e), e1, l1. split; [ | exact Hh1 ].
           intros st. unfold bind. now rewrite H1.
      * destruct (print_shape (InvalidJSON (msg_data msg)))
          as (r1 & l1 & H1 & Hh1).
        destruct r1 as [ [] | e ].
        -- exists r2, ([] ++ e2)%list, (l1 ++ l2)%list.
           split; [ | exact Hh2 ]. intros st. unfold bind.
           rewrite H1, H2. now rewrite record_events_compose.
        -- exists (Raise e), [], l1. split; [ | exact Hh1 ].
           intros st. unfold bind. now rewrite H1.
      * exists (Raise e), [], []. split.
        -- intros st. unfold raise. now rewrite record_events_nil.
        -- now apply (json_loads_gave_up py (msg_data msg)).
    + destruct (print_shape ConnectionClosed) as (r1 & l1 & H1 & Hh1).
      destruct r1 as [ [] | e ].
      * exists (Ok BrokeOnClose), [], l1. split; [ | exact I ].
        intros st. unfold bind. now rewrite H1.
      * exists (Raise e), [], l1. split; [ | exact Hh1 ].
        intros st. unfold bind. now rewrite H1.
    + destruct (print_shape (WebSocketError (msg_data msg)))
        as (r1 & l1 & H1 & Hh1).
      destruct r1 as [ [] | e ].
      * exists (Ok BrokeOnError), [], l1. split; [ | exact I ].
        intros st. unfold bind. now rewrite H1.
      * exists (Raise e), [], l1. split; [ | exact Hh1 ].
        intros st. unfold bind. now rewrite H1.
Qed.

(** The outer handler can always print what it caught. *)
Lemma print_error_listening (e : exn) (st : state) :
  ascii_text (exn_str e) = true ->
  print (ErrorListening e) st = (Ok tt, record_events [] [ErrorListening e] st).
Proof.
  intros H. apply print_record.
  apply (printable_line _ 33 (exn_str e)); [ reflexivity | ].
  now apply ascii_text_encodable.
Qed.

(** [listen_for_responses] never raises. *)
Lemma listen_for_responses_shape (py : interpreter) (msgs : list WSMessage)
    (st : state) :
  exists how entries lines,
    listen_for_responses py msgs st = (Ok how, record_events entries lines st).
Proof.
  unfold listen_for_responses, try_except, bind, get.
  destruct (websocket st) as [ w | ].
  - destruct (listen_loop_shape py msgs) as (r & entries & lines & H & Hh).
    rewrite H. destruct r as [ how | e ].
    + now exists how, entries, lines.
    + exists (Caught e), (entries ++ [])%list, (lines ++ [ErrorListening e])%list.
      cbv beta. rewrite print_error_listening by exact Hh. unfold ret.
      now rewrite record_events_compose.
  - eexists (Caught (TypeError _)), [], [ErrorListening (TypeError _)].
    unfold raise. cbv beta. now rewrite print_error_listening.
Qed.

(** The loop on a stream in two parts: the second part is read when the
    first is exhausted. *)
Lemma listen_loop_app (py : interpreter) (pre post : list WSMessage) :
  forall st,
    listen_loop py (pre ++ post) st
    = match listen_loop py pre st with
      | (Ok Exhausted, st1) => listen_loop py post st1
      | other => other
      end.
Proof.
  induction pre as [ | msg pre IH ]; intros st; [ reflexivity | ].
  cbn [app listen_loop].
  destruct (msg_type msg); try apply IH.
  - destruct (json_loads_on py (msg_data msg)) as [ data | | e ]; unfold bind.
    + destruct (_handle_response data st) as [ [ [] | e ] st1 ];
        [ apply IH | reflexivity ].
    + destruct (print (InvalidJSON (msg_data msg)) st) as [ [ [] | e ] st1 ];
        [ apply IH | reflexivity ].
    + reflexivity.
  - unfold bind.
    destruct (print ConnectionClosed st) as [ [ [] | e ] st1 ]; reflexivity.
  - unfold bind.
    destruct (print (WebSocketError (msg_data msg)) st) as [ [ [] | e ] st1 ];
      reflexivity.
Qed.

(** On a transcriber that holds a websocket the receive loop is the body
    of the loop under the outer handler. *)
Lemma listen_for_responses_connected (py : interpreter)
    (msgs : list WSMessage) (st : state) (w : nat) :
  websocket st = Some w ->
  listen_for_responses py msgs st
  = match listen_loop py msgs st with
    | (Ok how, st1) => (Ok how, st1)
    | (Raise e, st1) =>
        (Ok (Caught e), record_events [] [ErrorListening e] st1)
    end.
Proof.
  intros Hw. unfold listen_for_responses, try_except, bind, get. rewrite Hw.
  destruct (listen_loop_shape py msgs) as (r & entries & lines & H & Hh).
  rewrite H. destruct r as [ how | e ]; [ reflexivity | ].
  cbv beta. rewrite print_error_listening by exact Hh. reflexivity.
Qed.

Lemma websocket_listen_loop (py : interpreter) (msgs : list WSMessage)
    (st : state) :
  websocket (snd (listen_loop py msgs st)) = websocket st.
Proof.
  destruct (listen_loop_shape py msgs) as (r & entries & lines & H & _).
  now rewrite H.
Qed.







Lemma dict_get_absent (d : dict) (key : string) (default : json) :
  ~ In key (map fst d) -> dict_get d key default = default.
Proof.
  induction d as [ | [k v] d IH ]; cbn; [ reflexivity | ].
  intros H. destruct (String.eqb_spec k key) as [ -> | _ ].
  - exfalso. apply H. now left.
  - apply IH. intros Hin. apply H. now right.
Qed.

Lemma dict_get_set_same (d : dict) (key : string) (v default : json) :
  dict_get (dict_set d key v) key default = v.
Proof.
  induction d as [ | [k w] d IH ]; cbn.
  - now rewrite String.eqb_refl.
  - destruct (String.eqb_spec k key) as [ -> | Hne ]; cbn.
    + now rewrite String.eqb_refl.
    + destruct (String.eqb_spec k key); [ contradiction | exact IH ].
Qed.

Lemma dict_get_set_other (d : dict) (key key' : string) (v default : json) :
  key <> key' ->
  dict_get (dict_set d key v) key' default = dict_get d key' default.
Proof.
  intros Hne. induction d as [ | [k w] d IH ]; cbn.
  - destruct (String.eqb_spec key key'); [ contradiction | reflexivity ].
  - destruct (String.eqb_spec k key) as [ -> | Hk ]; cbn.
    + destruct (String.eqb_spec key key'); [ contradiction | reflexivity ].
    + now rewrite IH.
Qed.

(** C10. A completed-transcription event with no transcript field leaves
    the state as it is, buffer included, without raising: exactly what the
    same event does once an empty transcript is added to it. *)
Theorem C10_missing_transcript_is_empty (d : dict) (st : state) :
  type_of d = JStr completed_type ->
  ~ In "transcript" (map fst d) ->
  _handle_response (JObj d) st = (Ok tt, st)
  /\ _handle_response (JObj (dict_set d "transcript" (JStr EmptyString))) st
     = _handle_response (JObj d) st.
Proof.
  intros Hty Habsent.
  assert (E : _handle_response (JObj d) st = (Ok tt, st)).
  { rewrite (handle_completed _ _ Hty). unfold transcript_of.
    now rewrite (dict_get_absent _ _ _ Habsent). }
  split; [ exact E | ]. rewrite E.
  rewrite handle_completed.
  - unfold transcript_of. now rewrite dict_get_set_same.
  - unfold type_of. rewrite dict_get_set_other; [ exact Hty | discriminate ].
Qed.

Lemma C10_witness :
  _handle_response (JObj no_transcript_event) connected_state
    = (Ok tt, connected_state)
  /\ _handle_response
       (JObj (dict_set no_transcript_event "transcript" (JStr EmptyString)))
       connected_state
     = _handle_response (JObj no_transcript_event) connected_state.
Proof.
  apply (C10_missing_transcript_is_empty no_transcript_event connected_state).
  - reflexivity.
  - cbn. intros [ H | [ H | [ H | [ H | [] ] ] ] ]; discriminate H.
Defined.

(** ** Errors of the service *)




(** Both kinds of error frame, then a transcript, through the receive
    loop. *)
Example errors_then_transcript :
  listen_for_responses cpython
    [text_frame api_error_frame; text_frame failed_frame;
     text_frame hello_frame] connected_state
  = (Ok Exhausted,
     record_events [JStr "hello"]
       [APIErrorLine (dict_get api_error_event "error" JNull);
        TranscriptionFailed (dict_get failed_event "error" JNull);
        Transcription (JStr "hello")] connected_state).
Proof. vm_compute. reflexivity. Qed.



(** ** Frames that are not JSON *)

(** The receive loop does the same, up to what is printed, from two states
    that differ only in the console. *)
Lemma listen_for_responses_console (py : interpreter) (msgs : list WSMessage)
    (st : state) (lines : list console_line) :
  fst (listen_for_responses py msgs (record_events [] lines st))
  = fst (listen_for_responses py msgs st)
  /\ get_transcriptions
       (snd (listen_for_responses py msgs (record_events [] lines st)))
     = get_transcriptions (snd (listen_for_responses py msgs st)).
Proof.
  unfold listen_for_responses, try_except, bind, get.
  change (websocket (record_events [] lines st)) with (websocket st).
  destruct (websocket st) as [ w | ].
  - destruct (listen_loop_shape py msgs) as (r & entries & ls & H & Hh).
    rewrite !H. destruct r as [ how | e ]; cbn.
    + split; [ reflexivity | now rewrite !app_nil_r ].
    + rewrite !print_error_listening by exact Hh. cbn.
      split; [ reflexivity | now rewrite !app_nil_r ].
  - unfold raise. cbv beta. rewrite !print_error_listening by reflexivity.
    cbn. split; [ reflexivity | now rewrite !app_nil_r ].
Qed.

(** *** What [json.loads] rejects is not JSON *)

Lemma numeral_is_no_constant (s : string) :
  numeral s <> None ->
  strip_prefix "NaN" s = None /\ strip_prefix "Infinity" s = None
  /\ strip_prefix "-Infinity" s = None.
Proof.
  intros H. destruct s as [ | c r ]; [ now repeat split | ].
  cbn [strip_prefix]. repeat split.
  - destruct (Ascii.eqb_spec "N" c) as [ <- | _ ]; [ | reflexivity ].
    exfalso. apply H. reflexivity.
  - destruct (Ascii.eqb_spec "I" c) as [ <- | _ ]; [ | reflexivity ].
    exfalso. apply H. reflexivity.
  - destruct (Ascii.eqb_spec "-" c) as [ <- | _ ]; [ | reflexivity ].
    destruct r as [ | c2 r2 ]; [ reflexivity | ]. cbn [strip_prefix].
    destruct (Ascii.eqb_spec "I" c2) as [ <- | _ ]; [ | reflexivity ].
    exfalso. apply H. reflexivity.
Qed.

(** A scan without the constants and without limits that succeeds is
    followed step by step by any other scan. *)
Lemma parse_number_follows (a b : scanner) (s : string) (x : json * string) :
  int_max_str_digits a = 0 ->
  parse_number a s = Scanned x -> follows x (parse_number b s).
Proof.
  intros Ha. unfold parse_number, follows.
  destruct (numeral s) as [ [ [ [ [ neg ip ] fp ] ex ] rest ] | ];
    [ | discriminate ].
  destruct fp; [ destruct ex | ]; try (intros E; now left).
  unfold digits_refused at 1. rewrite Ha. cbn [Nat.ltb Nat.leb andb].
  intros E. destruct (digits_refused b ip) as [ e | ];
    [ right; now exists e | now left ].
Qed.

Lemma parse_literal_follows (a b : scanner) (s : string) (x : json * string) :
  parse_constant a = false -> int_max_str_digits a = 0 ->
  parse_literal a s = Scanned x -> follows x (parse_literal b s).
Proof.
  intros Hc Hd. unfold parse_literal. rewrite Hc.
  destruct (strip_prefix "null" s); [ intros E; now left | ].
  destruct (strip_prefix "true" s); [ intros E; now left | ].
  destruct (strip_prefix "false" s); [ intros E; now left | ].
  intros E.
  assert (Hn : numeral s <> None).
  { intros Hn. unfold parse_number in E. rewrite Hn in E. discriminate. }
  destruct (numeral_is_no_constant s Hn) as (-> & -> & ->).
  destruct (parse_constant b); now apply (parse_number_follows a).
Qed.

Lemma parse_follows (a b : scanner) (fuel : nat) :
  parse_constant a = false -> int_max_str_digits a = 0 ->
  (forall da db s x,
     parse_value a fuel da s = Scanned x ->
     follows x (parse_value b fuel db s))
  /\ (forall da db s acc x,
        parse_elements a fuel da s acc = Scanned x ->
        follows x (parse_elements b fuel db s acc))
  /\ (forall da db s acc x,
        parse_members a fuel da s acc = Scanned x ->
        follows x (parse_members b fuel db s acc)).
Proof.
  intros Hc Hd.
  induction fuel as [ | fuel (IHv & IHe & IHm) ];
    [ repeat split; intros; discriminate | ].
  split; [ | split ].
  - intros da db s x. cbn [parse_value].
    destruct s as [ | c r ]; [ discriminate | ].
    destruct (c =? dquote)%char.
    { destruct (parse_string r) as [ [ t rest ] | ];
        [ intros E; now left | discriminate ]. }
    destruct (c =? "{")%char.
    { destruct da as [ | da' ]; [ discriminate | ].
      destruct db as [ | db' ]; [ intros _; right; eexists; reflexivity | ].
      destruct (skip_ws r) as [ | c1 r1 ]; [ discriminate | ].
      destruct (c1 =? "}")%char; [ intros E; now left | apply IHm ]. }
    destruct (c =? "[")%char.
    { destruct da as [ | da' ]; [ discriminate | ].
      destruct db as [ | db' ]; [ intros _; right; eexists; reflexivity | ].
      destruct (skip_ws r) as [ | c1 r1 ]; [ discriminate | ].
      destruct (c1 =? "]")%char; [ intros E; now left | apply IHe ]. }
    now apply parse_literal_follows.
  - intros da db s acc x. cbn [parse_elements].
    destruct (parse_value a fuel da s) as [ [ v r ] | | e' ] eqn:Ev;
      try discriminate.
    destruct (IHv da db s (v, r) Ev) as [ -> | (e & ->) ];
      [ | intros _; right; now exists e ].
    destruct (skip_ws r) as [ | c r1 ]; [ discriminate | ].
    destruct (c =? ",")%char; [ apply IHe | ].
    destruct (c =? "]")%char; [ intros E; now left | discriminate ].
  - intros da db s acc x. cbn [parse_members].
    destruct s as [ | q r ]; [ discriminate | ].
    destruct (q =? dquote)%char; [ | discriminate ].
    destruct (parse_string r) as [ [ key r1 ] | ]; [ | discriminate ].
    destruct (skip_ws r1) as [ | c r2 ]; [ discriminate | ].
    destruct (c =? ":")%char; [ | discriminate ].
    destruct (parse_value a fuel da (skip_ws r2)) as [ [ v r3 ] | | e' ]
      eqn:Ev; try discriminate.
    destruct (IHv da db (skip_ws r2) (v, r3) Ev) as [ -> | (e & ->) ];
      [ | intros _; right; now exists e ].
    destruct (skip_ws r3) as [ | c' r4 ]; [ discriminate | ].
    destruct (c' =? ",")%char; [ apply IHm | ].
    destruct (c' =? "}")%char; [ intros E; now left | discriminate ].
Qed.

(** A payload on which [json.loads] raises [JSONDecodeError] is not valid
    JSON, on whatever interpreter. *)
Lemma malformed_is_not_json (py : interpreter) (s : string) :
  json_loads_on py s = Malformed -> valid_json s = false.
Proof.
  unfold json_loads_on, valid_json, scan.
  cbn [nesting_left unbounded].
  match goal with
  | |- context [parse_value (unbounded false s) ?fuel ?da ?t] =>
      destruct (parse_value (unbounded false s) fuel da t)
        as [ [ v rest ] | | e ] eqn:Ev; try reflexivity
  end.
  match type of Ev with
  | parse_value ?a ?fuel ?da ?t = _ =>
      destruct (proj1 (parse_follows a
                         {| parse_constant := true;
                            nesting_left := recursion_room py;
                            int_max_str_digits := max_str_digits py |}
                         fuel eq_refl eq_refl)
                  da (recursion_room py) t (v, rest) Ev) as [ -> | (e & ->) ]
  end.
  - destruct (skip_ws rest); [ discriminate | reflexivity ].
  - discriminate.
Qed.

(** C2, as the code has it. A text frame on which [json.loads] raises
    [JSONDecodeError], which is not valid JSON then, is logged and skipped:
    the loop goes on with the frames that follow, from a state that differs
    only by the warning; wherever the frame stands in the stream, the
    receive loop goes on after it as it does without it, ends the same way
    with the same transcript buffer, and does not raise. *)
Theorem C2_malformed_frame_is_skipped (py : interpreter)
    (payload : string) (pre post : list WSMessage) (st : state) (w : nat) :
  json_loads_on py payload = Malformed ->
  encodable payload = true ->
  websocket st = Some w ->
  valid_json payload = false
  /\ listen_loop py (text_frame payload :: post) st
     = listen_loop py post (record_events [] [InvalidJSON payload] st)
  /\ listen_for_responses py (text_frame payload :: post) st
     = listen_for_responses py post
         (record_events [] [InvalidJSON payload] st)
  /\ get_transcriptions (record_events [] [InvalidJSON payload] st)
     = get_transcriptions st
  /\ (forall st1 : state,
        listen_loop py pre st = (Ok Exhausted, st1) ->
        listen_for_responses py (pre ++ text_frame payload :: post) st
        = listen_for_responses py post
            (record_events [] [InvalidJSON payload] st1))
  /\ fst (listen_for_responses py (pre ++ text_frame payload :: post) st)
     = fst (listen_for_responses py (pre ++ post) st)
  /\ get_transcriptions
       (snd (listen_for_responses py (pre ++ text_frame payload :: post) st))
     = get_transcriptions (snd (listen_for_responses py (pre ++ post) st))
  /\ exists how,
       fst (listen_for_responses py (pre ++ text_frame payload :: post) st)
       = Ok how.
Proof.
  intros Hbad Henc Hw.
  assert (Hprint : forall s,
             print (InvalidJSON payload) s
             = (Ok tt, record_events [] [InvalidJSON payload] s)).
  { intros s. apply print_record.
    now apply (printable_line (InvalidJSON payload) 26 payload). }
  assert (Hhead : forall s,
             listen_loop py (text_frame payload :: post) s
             = listen_loop py post (record_events [] [InvalidJSON payload] s)).
  { intros s. cbn [listen_loop text_frame msg_type msg_data]. rewrite Hbad.
    unfold bind. now rewrite Hprint. }
  assert (Hfrom : forall st1 : state,
             listen_loop py pre st = (Ok Exhausted, st1) ->
             listen_for_responses py (pre ++ text_frame payload :: post) st
             = listen_for_responses py post
                 (record_events [] [InvalidJSON payload] st1)).
  { intros st1 Hpre.
    assert (Hw1 : websocket st1 = Some w).
    { pose proof (websocket_listen_loop py pre st) as Q.
      rewrite Hpre in Q. cbn in Q. congruence. }
    rewrite (listen_for_responses_connected py _ st w Hw).
    rewrite (listen_for_responses_connected py post
               (record_events [] [InvalidJSON payload] st1) w Hw1).
    now rewrite listen_loop_app, Hpre, Hhead. }
  assert (Hcmp :
            fst (listen_for_responses py (pre ++ text_frame payload :: post) st)
            = fst (listen_for_responses py (pre ++ post) st)
            /\ get_transcriptions
                 (snd (listen_for_responses py
                         (pre ++ text_frame payload :: post) st))
               = get_transcriptions
                   (snd (listen_for_responses py (pre ++ post) st))).
  { destruct (listen_loop py pre st) as [ [ how | e ] st1 ] eqn:Hpre.
    - destruct how.
      + rewrite (Hfrom st1 eq_refl).
        assert (Hw1 : websocket st1 = Some w).
        { pose proof (websocket_listen_loop py pre st) as Q.
          rewrite Hpre in Q. cbn in Q. congruence. }
        assert (E : listen_for_responses py (pre ++ post) st
                    = listen_for_responses py post st1).
        { rewrite (listen_for_responses_connected py _ st w Hw).
          rewrite (listen_for_responses_connected py post st1 w Hw1).
          now rewrite listen_loop_app, Hpre. }
        rewrite E. apply listen_for_responses_console.
      + rewrite !(listen_for_responses_connected py _ st w Hw).
        rewrite !listen_loop_app, Hpre. now split.
      + rewrite !(listen_for_responses_connected py _ st w Hw).
        rewrite !listen_loop_app, Hpre. now split.
      + rewrite !(listen_for_responses_connected py _ st w Hw).
        rewrite !listen_loop_app, Hpre. now split.
    - rewrite !(listen_for_responses_connected py _ st w Hw).
      rewrite !listen_loop_app, Hpre. now split. }
  split; [ now apply (malformed_is_not_json py) | ].
  split; [ apply Hhead | ].
  split.
  { rewrite (listen_for_responses_connected py _ st w Hw).
    rewrite (listen_for_responses_connected py post
               (record_events [] [InvalidJSON payload] st) w Hw).
    now rewrite Hhead. }
  split; [ cbn; apply app_nil_r | ].
  split; [ exact Hfrom | ].
  split; [ apply Hcmp | split; [ apply Hcmp | ] ].
  destruct (listen_for_responses_shape py
              (pre ++ text_frame payload :: post) st)
    as (how & entries & lines & E).
  exists how. now rewrite E.
Qed.

Lemma C2_witness :
  listen_for_responses cpython
    (text_frame garbage_frame :: [text_frame world_frame]) connected_state
  = listen_for_responses cpython [text_frame world_frame]
      (record_events [] [InvalidJSON garbage_frame] connected_state).
Proof.
  apply (C2_malformed_frame_is_skipped cpython garbage_frame
           [text_frame hello_frame] [text_frame world_frame]
           connected_state 0).
  - vm_compute. reflexivity.
  - reflexivity.
  - reflexivity.
Defined.

(** C2, as stated, fails.  The payload [NaN] is not valid JSON, but
    [json.loads] accepts it: no warning is logged, the handler raises on the
    float and the receive loop ends before the transcript that follows.  A
    payload of 2000 opening brackets is not valid JSON either: [json.loads]
    raises [RecursionError], which is not [JSONDecodeError], and the loop
    ends. *)
Lemma C2_counterexample :
  valid_json "NaN" = false
  /\ listen_for_responses cpython
       [text_frame "NaN"; text_frame hello_frame] connected_state
     = (Ok (Caught (AttributeError "'float' object has no attribute 'get'")),
        record_events []
          [ErrorListening
             (AttributeError "'float' object has no attribute 'get'")]
          connected_state)
  /\ valid_json (repeat_char "[" 2000) = false
  /\ listen_for_responses cpython
       [text_frame (repeat_char "[" 2000); text_frame hello_frame]
       connected_state
     = (Ok (Caught
              (RecursionError
                 "maximum recursion depth exceeded while decoding a JSON array from a unicode string")),
        record_events []
          [ErrorListening
             (RecursionError
                "maximum recursion depth exceeded while decoding a JSON array from a unicode string")]
          connected_state).
Proof. repeat split; vm_compute; reflexivity. Qed.

(** ** The append-event codec *)

Lemma list_ind3 {A} (P : list A -> Prop) :
  P [] -> (forall a, P [a]) -> (forall a b, P [a; b]) ->
  (forall a b c l, P l -> P (a :: b :: c :: l)) ->
  forall l, P l.
Proof.
  intros H0 H1 H2 H3. fix IH 1. intros l.
  destruct l as [ | a [ | b [ | c l ] ] ];
    [ exact H0 | apply H1 | apply H2 | apply H3, IH ].
Qed.

Lemma below_64 (P : N -> bool) :
  forallb P (map N.of_nat (seq 0 64)) = true ->
  forall k, (k < 64)%N -> P k = true.
Proof.
  intros H k Hk. rewrite forallb_forall in H. apply H.
  rewrite <- (N2Nat.id k). apply in_map. apply in_seq. lia.
Qed.

Lemma b64_val_char (k : N) :
  (k < 64)%N ->
  b64_val (b64_char k) = Some k
  /\ (b64_char k =? "=")%char = false
  /\ plain (b64_char k) = true.
Proof.
  intros Hk.
  pose (P := fun k =>
               match b64_val (b64_char k) with
               | Some v => (v =? k)%N
               | None => false
               end && negb (b64_char k =? "=")%char && plain (b64_char k)).
  assert (H : P k = true) by (apply below_64; [ vm_compute; reflexivity | exact Hk ]).
  unfold P in H. apply andb_prop in H as [ H Hp ].
  apply andb_prop in H as [ Hv He ].
  destruct (b64_val (b64_char k)) as [ v | ]; [ | discriminate ].
  apply N.eqb_eq in Hv. subst v.
  repeat split; [ now destruct (b64_char k =? "=")%char | exact Hp ].
Qed.

Lemma byte_bound (b : byte) : (Byte.to_N b < 256)%N.
Proof. destruct b; vm_compute; reflexivity. Qed.

Lemma byte_of_to_N (b : byte) (n : N) : n = Byte.to_N b -> byte_of n = b.
Proof. intros ->. unfold byte_of. now rewrite Byte.of_to_N. Qed.

Theorem b64decode_b64encode (data : list byte) :
  b64decode (b64encode data) = Some data.
Proof.
  induction data as [ | a | a b | a b c l IH ] using list_ind3.
  - reflexivity.
  - pose proof (byte_bound a) as Ha.
    cbn [b64encode b64decode].
    destruct (b64_val_char (Byte.to_N a * 65536 / 262144)) as (-> & _ & _);
      [ lia | ].
    destruct (b64_val_char (Byte.to_N a * 65536 / 4096 mod 64)) as (-> & _ & _);
      [ lia | ].
    cbn. f_equal. f_equal. apply byte_of_to_N. lia.
  - pose proof (byte_bound a) as Ha. pose proof (byte_bound b) as Hb.
    cbn [b64encode b64decode].
    set (n := (Byte.to_N a * 65536 + Byte.to_N b * 256)%N).
    destruct (b64_val_char (n / 262144)) as (-> & _ & _); [ lia | ].
    destruct (b64_val_char (n / 4096 mod 64)) as (-> & _ & _); [ lia | ].
    destruct (b64_val_char (n / 64 mod 64)) as (-> & -> & _); [ lia | ].
    cbn. f_equal. f_equal; [ | f_equal ]; apply byte_of_to_N; lia.
  - pose proof (byte_bound a) as Ha. pose proof (byte_bound b) as Hb.
    pose proof (byte_bound c) as Hc.
    cbn [b64encode b64decode].
    set (n := (Byte.to_N a * 65536 + Byte.to_N b * 256 + Byte.to_N c)%N).
    destruct (b64_val_char (n / 262144)) as (-> & _ & _); [ lia | ].
    destruct (b64_val_char (n / 4096 mod 64)) as (-> & _ & _); [ lia | ].
    destruct (b64_val_char (n / 64 mod 64)) as (-> & _ & _); [ lia | ].
    destruct (b64_val_char (n mod 64)) as (-> & -> & _); [ lia | ].
    rewrite IH. f_equal. f_equal; [ | f_equal; [ | f_equal ] ];
      apply byte_of_to_N; lia.
Qed.

Lemma plain_facts (c : ascii) :
  plain c = true ->
  (c =? dquote)%char = false /\ (c =? backslash)%char = false
  /\ (code c <? 32)%N = false /\ (code c <? 192)%N = true
  /\ escape_cp (code c) = String c EmptyString.
Proof.
  destruct c as [ [] [] [] [] [] [] [] [] ]; intros H;
    try discriminate H; repeat split; reflexivity.
Qed.

Lemma b64encode_plain (data : list byte) : plain_string (b64encode data) = true.
Proof.
  assert (Hp : forall k, plain (b64_char (k mod 64)) = true)
    by (intros k; apply b64_val_char; lia).
  assert (Hq : forall k, (k < 64)%N -> plain (b64_char k) = true)
    by (intros k Hk; now apply b64_val_char).
  induction data as [ | a | a b | a b c l IH ] using list_ind3.
  - reflexivity.
  - pose proof (byte_bound a). cbn [b64encode plain_string].
    rewrite Hq, Hp by lia. reflexivity.
  - pose proof (byte_bound a). pose proof (byte_bound b).
    cbn [b64encode plain_string]. rewrite Hq, !Hp by lia. reflexivity.
  - pose proof (byte_bound a). pose proof (byte_bound b).
    pose proof (byte_bound c).
    cbn [b64encode plain_string]. rewrite Hq, !Hp, IH by lia. reflexivity.
Qed.

Lemma encode_basestring_ascii_plain (s : string) :
  plain_string s = true ->
  encode_basestring_ascii s = String dquote (s ++ String dquote EmptyString)%string.
Proof.
  unfold encode_basestring_ascii. intros H. f_equal.
  induction s as [ | c r IH ]; [ reflexivity | ].
  cbn [plain_string] in H. apply andb_prop in H as [ Hc Hr ].
  destruct (plain_facts c Hc) as (_ & _ & _ & Hlt & Hesc).
  cbn [utf8_decode]. rewrite Hlt. cbn [fold_right]. rewrite Hesc, (IH Hr).
  reflexivity.
Qed.

Lemma parse_string_plain (s rest : string) :
  plain_string s = true ->
  parse_string (s ++ String dquote rest)%string = Some (s, rest).
Proof.
  unfold parse_string. intros H.
  assert (E : exists items,
             scan_string (s ++ String dquote rest)%string = Some (items, rest)
             /\ assemble items = s).
  { induction s as [ | c r IH ].
    - exists []. split; reflexivity.
    - cbn [plain_string] in H. apply andb_prop in H as [ Hc Hr ].
      destruct (plain_facts c Hc) as (Hq & Hb & Hctl & _ & _).
      destruct (IH Hr) as (items & Hs & Ha).
      exists (inl c :: items). cbn [String.append scan_string].
      rewrite Hq, Hb, Hctl, Hs. split; [ reflexivity | ].
      cbn [assemble]. now rewrite Ha. }
  destruct E as (items & -> & ->). reflexivity.
Qed.

Lemma string_app_assoc (a b c : string) :
  ((a ++ b) ++ c)%string = (a ++ (b ++ c))%string.
Proof. induction a as [ | x a IH ]; cbn; [ reflexivity | now rewrite IH ]. Qed.

(** The text frame of an append event. *)
Lemma json_dumps_audio_event (data : list byte) :
  json_dumps (audio_event data)
  = ("{" ++ String dquote ("type" ++ String dquote (": "
       ++ String dquote ("input_audio_buffer.append" ++ String dquote (", "
       ++ String dquote ("audio" ++ String dquote (": "
       ++ String dquote (b64encode data ++ String dquote "}"))))))))%string.
Proof.
  unfold audio_event. cbn [json_dumps].
  rewrite (encode_basestring_ascii_plain (b64encode data))
    by apply b64encode_plain.
  generalize (b64encode data). intros b. cbn.
  now rewrite !string_app_assoc.
Qed.

(** The text of an append event scans to the event, under any settings
    that allow one object to be entered. *)
Lemma scan_audio_event (cfg : scanner) (depth : nat) (data : list byte) :
  nesting_left cfg = S depth ->
  scan cfg (json_dumps (audio_event data)) = Scanned (audio_event data).
Proof.
  intros Hd. rewrite json_dumps_audio_event. unfold scan. rewrite Hd.
  assert (Hb : parse_string (b64encode data ++ String dquote "}")%string
               = Some (b64encode data, "}"))
    by (apply parse_string_plain, b64encode_plain).
  revert Hb. unfold audio_event. generalize (b64encode data). intros b Hb.
  remember (b ++ String dquote "}")%string as tail eqn:Et.
  cbn [String.length String.append Nat.mul Nat.add].
  rewrite Nat.add_succ_r. cbn [Nat.add]. rewrite Nat.add_succ_r.
  cbn [Nat.add]. rewrite Nat.add_succ_r.
  match goal with
  | |- context [parse_value cfg (S (S (S (S ?k))))] => generalize k
  end.
  intros k. cbn -[parse_string].
  cbn. rewrite Hb. cbn. reflexivity.
Qed.

Lemma json_loads_audio_event (data : list byte) :
  json_loads (json_dumps (audio_event data)) = Some (audio_event data).
Proof.
  unfold json_loads.
  now rewrite (scan_audio_event _ (String.length (json_dumps (audio_event data)))).
Qed.

(** C4. For every frame, the text of its append event parses back to the
    event, the object has the type of an append event, and base64-decoding
    its audio field gives the bytes of the frame; so it is for a frame of
    2048 bytes; and [json.loads] reads the event on every interpreter that
    can enter one object. *)
Theorem C4_append_event_round_trip (frame : list byte) :
  json_loads (json_dumps (audio_event frame)) = Some (audio_event frame)
  /\ (exists d a,
        json_loads (json_dumps (audio_event frame)) = Some (JObj d)
        /\ dict_get d "type" JNull = JStr "input_audio_buffer.append"
        /\ dict_get d "audio" JNull = JStr a
        /\ b64decode a = Some frame)
  /\ frame_of (json_dumps (audio_event frame)) = Some frame
  /\ frame_of (json_dumps (audio_event (pcm chunk_bytes)))
     = Some (pcm chunk_bytes)
  /\ (forall (py : interpreter) (room : nat),
        recursion_room py = S room ->
        json_loads_on py (json_dumps (audio_event frame))
        = Scanned (audio_event frame)).
Proof.
  assert (F : forall data,
             frame_of (json_dumps (audio_event data)) = Some data).
  { intros data. unfold frame_of. rewrite json_loads_audio_event.
    unfold audio_event. cbn [dict_get String.eqb Ascii.eqb Bool.eqb eq_str].
    cbn. apply b64decode_b64encode. }
  split; [ apply json_loads_audio_event | ].
  split; [ | split; [ apply F | split; [ apply F | ] ] ].
  - eexists _, (b64encode frame).
    split; [ apply json_loads_audio_event | ].
    split; [ reflexivity | split; [ reflexivity | apply b64decode_b64encode ] ].
  - intros py room Hroom. unfold json_loads_on.
    now apply (scan_audio_event _ room).
Qed.

(** ** What goes over the wire *)

Lemma nth_error_list_update {A} (l : list A) (i : nat) (f : A -> A) (x : A) :
  nth_error l i = Some x -> nth_error (list_update l i f) i = Some (f x).
Proof.
  revert i. induction l as [ | a l IH ]; intros [ | i ]; cbn; try discriminate.
  - now intros [= ->].
  - apply IH.
Qed.

Lemma nth_error_last {A} (l : list A) (x : A) :
  nth_error (l ++ [x]) (List.length l) = Some x.
Proof. induction l as [ | a l IH ]; [ reflexivity | exact IH ]. Qed.

Lemma list_update_last {A} (l : list A) (x : A) (f : A -> A) :
  list_update (l ++ [x]) (List.length l) f = l ++ [f x].
Proof.
  induction l as [ | a l IH ]; [ reflexivity | ]. cbn. now rewrite IH.
Qed.

Lemma list_update_ext {A} (l : list A) (i : nat) (f g : A -> A) :
  (forall x, f x = g x) -> list_update l i f = list_update l i g.
Proof.
  intros H. revert i. induction l as [ | a l IH ]; intros [ | i ]; cbn;
    try reflexivity.
  - now rewrite H.
  - now rewrite IH.
Qed.

Lemma list_update_twice {A} (l : list A) (i : nat) (f g : A -> A) :
  list_update (list_update l i f) i g = list_update l i (fun x => g (f x)).
Proof.
  revert i. induction l as [ | a l IH ]; intros [ | i ]; cbn;
    try reflexivity.
  now rewrite IH.
Qed.

Lemma list_update_id {A} (l : list A) (i : nat) (f : A -> A) :
  (forall x, f x = x) -> list_update l i f = l.
Proof.
  intros H. revert i. induction l as [ | a l IH ]; intros [ | i ]; cbn;
    try reflexivity.
  - now rewrite H.
  - now rewrite IH.
Qed.

Lemma nth_error_list_update_same {A} (l : list A) (i : nat) (f : A -> A) :
  nth_error (list_update l i f) i = option_map f (nth_error l i).
Proof.
  revert i. induction l as [ | a l IH ]; intros [ | i ]; cbn;
    try reflexivity.
  apply IH.
Qed.

Lemma nth_error_list_update_other {A} (l : list A) (i j : nat) (f : A -> A) :
  i <> j -> nth_error (list_update l i f) j = nth_error l j.
Proof.
  revert i j. induction l as [ | a l IH ]; intros [ | i ] [ | j ] H; cbn;
    try reflexivity; try contradiction.
  apply IH. congruence.
Qed.

Lemma length_list_update {A} (l : list A) (i : nat) (f : A -> A) :
  List.length (list_update l i f) = List.length l.
Proof.
  revert i. induction l as [ | a l IH ]; intros [ | i ]; cbn;
    try reflexivity.
  now rewrite IH.
Qed.

Lemma append_sent_nil (c : connection) : append_sent [] c = c.
Proof. destruct c. unfold append_sent. cbn. now rewrite app_nil_r. Qed.

Lemma wire_nil (st : state) : wire [] [] [] st = st.
Proof.
  destruct st as [k w s rec buf cs n con sl]. unfold wire. cbn.
  rewrite !app_nil_r.
  destruct w; [ rewrite (list_update_id _ _ _ append_sent_nil) | ];
    reflexivity.
Qed.

Lemma wire_compose (t1 t2 : list string) (p1 p2 : list Q)
    (l1 l2 : list console_line) (st : state) :
  wire t2 p2 l2 (wire t1 p1 l1 st) = wire (t1 ++ t2) (p1 ++ p2) (l1 ++ l2) st.
Proof.
  unfold wire. cbn. rewrite !app_assoc.
  destruct (websocket st); [ | reflexivity ].
  rewrite list_update_twice.
  rewrite (list_update_ext _ _ _ (append_sent (t1 ++ t2))); [ reflexivity | ].
  intros c. unfold append_sent. cbn. now rewrite app_assoc.
Qed.

Lemma is_open_wire (t : list string) (p : list Q) (l : list console_line)
    (st : state) :
  is_open (wire t p l st) = is_open st.
Proof.
  unfold is_open, ws_closed, wire. cbn.
  destruct (websocket st) as [ w | ]; [ | reflexivity ].
  rewrite nth_error_list_update_same.
  now destruct (nth_error (conns st) w).
Qed.

Lemma sent_on_websocket_wire (t : list string) (p : list Q)
    (l : list console_line) (st : state) :
  is_open st = true ->
  sent_on_websocket (wire t p l st) = sent_on_websocket st ++ t.
Proof.
  unfold is_open, ws_closed, sent_on_websocket, wire. cbn.
  destruct (websocket st) as [ w | ]; [ | discriminate ].
  rewrite nth_error_list_update_same.
  destruct (nth_error (conns st) w); [ reflexivity | discriminate ].
Qed.

Lemma set_slept_wire (q : Q) (st : state) :
  set_slept (slept st ++ [q]) st = wire [] [q] [] st.
Proof.
  destruct st as [k w s rec buf cs n con sl]. unfold wire, set_slept. cbn.
  rewrite !app_nil_r.
  destruct w; [ now rewrite (list_update_id _ _ _ append_sent_nil) | ];
    reflexivity.
Qed.


Lemma send_audio_data_wire (event : json) (st : state) :
  _send_audio_data event st
  = (Ok tt, wire (if is_open st then [json_dumps event] else []) [] [] st).
Proof.
  unfold _send_audio_data, try_except, bind, get, is_open.
  destruct (websocket st) as [ w | ] eqn:Hw;
    [ | now rewrite wire_nil ].
  destruct (ws_closed w st) eqn:Hc; cbn [negb];
    [ now rewrite wire_nil | ].
  unfold send_str. rewrite Hc. f_equal.
  destruct st as [k w' s rec buf cs n con sl]. cbn in Hw. subst w'.
  unfold wire, set_conns. cbn. now rewrite !app_nil_r.
Qed.

Lemma print_wire (l : console_line) (st : state) :
  unprintable l = None -> print l st = (Ok tt, wire [] [] [l] st).
Proof.
  intros H. unfold print. rewrite H. unfold modify. f_equal.
  destruct st as [k w s rec buf cs n con sl]. unfold wire, set_console. cbn.
  rewrite !app_nil_r.
  destruct w; [ now rewrite (list_update_id _ _ _ append_sent_nil) | ];
    reflexivity.
Qed.

Lemma send_commit_event_wire (st : state) :
  send_commit_event st
  = (Ok tt,
     if is_open st then wire [json_dumps commit_event] [] [] st
     else wire [] [] [ErrorSendingCommit (commit_error st)] st).
Proof.
  unfold send_commit_event, try_except, bind, get, is_open, commit_error.
  destruct (websocket st) as [ w | ] eqn:Hw.
  - unfold send_str. destruct (ws_closed w st) eqn:Hc; cbn [negb].
    + now rewrite print_wire by reflexivity.
    + f_equal. destruct st as [k w' s rec buf cs n con sl]. cbn in Hw.
      subst w'. unfold wire, set_conns. cbn. now rewrite !app_nil_r.
  - unfold raise. now rewrite print_wire by reflexivity.
Qed.

Lemma sleep_wire (q : Q) (st : state) : sleep q st = (Ok tt, wire [] [q] [] st).
Proof. unfold sleep, modify. now rewrite set_slept_wire. Qed.

(** ** Streaming a file *)

Lemma chunk_bytes_pos : 0 < chunk_bytes.
Proof. unfold chunk_bytes, CHUNK_SIZE, bytes_per_frame. lia. Qed.

(** A decoder that does not hang writes the whole of its output. *)
Lemma written_to_the_end (room : nat) (writes : list write) :
  snd (written room writes) = false ->
  written room writes = (stdout_of writes, false).
Proof.
  revert room. induction writes as [ | [ data | text ] rest IH ]; intros room;
    cbn [written stdout_of]; [ reflexivity | | ].
  - destruct (written room rest) as [ more hangs ] eqn:E. cbn [snd].
    intros ->. specialize (IH room). rewrite E in IH.
    specialize (IH eq_refl). now injection IH as ->.
  - destruct (room <? String.length text)%nat; [ discriminate | apply IH ].
Qed.


(** With fuel above the length of what is pending the loop reaches its
    end: every chunk read is sent when the websocket is open, each one is
    followed by the same pause, and then the loop returns, or hangs in the
    read that follows the last chunk. *)
Lemma stream_loop_wire (f : number) (pause : Q) (hangs : bool) (fuel : nat) :
  pace f = Ok pause ->
  forall (pending : list byte) (arr : list nat) (st : state),
    List.length pending < fuel ->
    stream_loop fuel f pending arr hangs st
    = Some ((if hangs then Blocked else Ended (Ok tt))
              (wire (if is_open st
                     then map (fun data => json_dumps (audio_event data))
                            (reads fuel pending arr)
                     else [])
                 (repeat pause (List.length (reads fuel pending arr))) []
                 st)).
Proof.
  intros Hpace. pose proof chunk_bytes_pos as Hpos.
  induction fuel as [ | fuel IH ]; intros pending arr st Hlen; [ lia | ].
  cbn [stream_loop reads]. unfold read.
  destruct pending as [ | b pending ].
  - cbn. destruct (is_open st), hangs; now rewrite wire_nil.
  - set (k := Nat.min chunk_bytes
                (match arr with a :: _ => Nat.max 1 a
                           | [] => List.length (b :: pending) end)).
    assert (Hk : 0 < k) by (unfold k; destruct arr; cbn [List.length]; lia).
    destruct k as [ | k' ] eqn:Ek; [ lia | ].
    cbn [firstn skipn]. unfold bind at 1. rewrite Hpace.
    rewrite send_audio_data_wire, sleep_wire, wire_compose.
    rewrite IH by (rewrite length_skipn; cbn [List.length] in Hlen; lia).
    rewrite is_open_wire, wire_compose. cbn [List.length repeat map].
    destruct (is_open st); reflexivity.
Qed.


(** What [stream_file] does once the decoder has started, when the pause
    can be computed. *)
Lemma stream_file_started (h : host) (file_path : string) (f : number)
    (pause : Q) (send_commit : bool) (st : state) (x : string)
    (proc : process) :
  which_ffmpeg h = Some x ->
  create_subprocess_exec h file_path = Ok proc ->
  pace f = Ok pause ->
  stream_file h file_path f send_commit st
  = let (output, hangs) := written (stderr_room h) (script proc) in
    let frames := chunks output (arrivals proc) in
    let texts := map (fun data => json_dumps (audio_event data)) frames in
    Some (if hangs
          then Blocked
                 (wire (if is_open st then texts else [])
                    (repeat pause (List.length frames)) [] st)
          else Ended (Ok tt)
                 (wire
                    (if is_open st
                     then texts
                            ++ (if send_commit then [json_dumps commit_event]
                                else [])
                     else [])
                    (repeat pause (List.length frames))
                    (if send_commit && negb (is_open st)
                     then [ErrorSendingCommit (commit_error st)] else [])
                    st)).
Proof.
  intros Hw Hp Hpace. unfold stream_file. rewrite Hw, Hp.
  destruct (written (stderr_room h) (script proc)) as [ output hangs ].
  rewrite (stream_loop_wire f pause hangs _ Hpace) by lia.
  fold (chunks output (arrivals proc)). cbv zeta.
  destruct hangs; [ reflexivity | ].
  destruct send_commit; cbn [andb].
  - rewrite send_commit_event_wire, is_open_wire.
    assert (Hce : forall t p l, commit_error (wire t p l st) = commit_error st)
      by reflexivity.
    rewrite Hce.
    destruct (is_open st); cbn [negb]; rewrite wire_compose;
      now rewrite ?app_nil_r.
  - destruct (is_open st); now rewrite ?app_nil_r.
Qed.

(** So for a decoder that runs to its end. *)
Lemma stream_file_wire (h : host) (file_path : string) (f : number)
    (pause : Q) (send_commit : bool) (st : state) (x : string)
    (proc : process) :
  which_ffmpeg h = Some x ->
  create_subprocess_exec h file_path = Ok proc ->
  runs_to_end h proc = true ->
  pace f = Ok pause ->
  stream_file h file_path f send_commit st
  = Some (Ended (Ok tt)
            (wire
               (if is_open st
                then map (fun data => json_dumps (audio_event data))
                       (frames_read proc)
                       ++ (if send_commit then [json_dumps commit_event]
                           else [])
                else [])
               (repeat pause (List.length (frames_read proc)))
               (if send_commit && negb (is_open st)
                then [ErrorSendingCommit (commit_error st)] else [])
               st)).
Proof.
  intros Hw Hp Hrun Hpace.
  rewrite (stream_file_started h file_path f pause send_commit st x proc
             Hw Hp Hpace).
  unfold runs_to_end in Hrun. apply negb_true_iff in Hrun.
  now rewrite (written_to_the_end _ _ Hrun).
Qed.

(** *** The chunks read *)

Lemma reads_concat (fuel : nat) :
  forall (pending : list byte) (arr : list nat),
    List.length pending < fuel ->
    List.concat (reads fuel pending arr) = pending
    /\ Forall (fun data => 0 < List.length data <= chunk_bytes)
         (reads fuel pending arr).
Proof.
  pose proof chunk_bytes_pos as Hpos.
  induction fuel as [ | fuel IH ]; intros pending arr Hlen; [ lia | ].
  cbn [reads]. unfold read.
  destruct pending as [ | b pending ]; [ now split | ].
  set (k := Nat.min chunk_bytes
              (match arr with a :: _ => Nat.max 1 a
                         | [] => List.length (b :: pending) end)).
  assert (Hk : 0 < k <= chunk_bytes)
    by (unfold k; destruct arr; cbn [List.length]; lia).
  destruct k as [ | k' ] eqn:Ek; [ lia | ].
  cbn [firstn skipn].
  destruct (IH (skipn k' pending) (tl arr)) as [ Hc Hf ].
  { rewrite length_skipn. cbn [List.length] in Hlen. lia. }
  split.
  - cbn [List.concat]. rewrite Hc. cbn [app]. now rewrite firstn_skipn.
  - constructor; [ | exact Hf ]. cbn [List.length].
    pose proof (firstn_le_length k' pending). lia.
Qed.

Lemma reads_buffered (fuel : nat) :
  forall pending : list byte,
    List.length pending < fuel ->
    full_but_last chunk_bytes (reads fuel pending []).
Proof.
  pose proof chunk_bytes_pos as Hpos.
  induction fuel as [ | fuel IH ]; intros pending Hlen; [ lia | ].
  cbn [reads]. unfold read.
  destruct pending as [ | b pending ]; [ exact I | ].
  cbn [tl].
  set (k := Nat.min chunk_bytes (List.length (b :: pending))).
  assert (Hk : 0 < k) by (unfold k; cbn [List.length]; lia).
  destruct k as [ | k' ] eqn:Ek; [ lia | ].
  cbn [firstn skipn].
  assert (Hrest : List.length (skipn k' pending) < fuel)
    by (rewrite length_skipn; cbn [List.length] in Hlen; lia).
  specialize (IH (skipn k' pending) Hrest).
  cbn [full_but_last].
  destruct (reads fuel (skipn k' pending) []) as [ | y rest ] eqn:Er.
  - cbn [List.length]. pose proof (firstn_le_length k' pending).
    unfold k in Ek. lia.
  - split; [ | exact IH ].
    (* a further read returned data, so this one was served in full *)
    destruct fuel as [ | fuel' ]; [ discriminate Er | ].
    cbn [reads] in Er. unfold read in Er.
    destruct (skipn k' pending) as [ | c more ] eqn:Es; [ discriminate Er | ].
    assert (Hlt : k' < List.length pending).
    { assert (List.length (skipn k' pending) = S (List.length more))
        by now rewrite Es.
      rewrite length_skipn in H. lia. }
    cbn [List.length]. rewrite length_firstn.
    unfold k in Ek. cbn [List.length] in Ek. lia.
Qed.

(** Full frames but for the last: their number is the size of the output
    divided by the size of a frame, rounded up. *)
Lemma full_but_last_count (n : nat) (frames : list (list byte)) :
  full_but_last n frames ->
  List.length (List.concat frames) <= List.length frames * n
  /\ (frames <> [] ->
      (List.length frames - 1) * n < List.length (List.concat frames)).
Proof.
  induction frames as [ | x rest IH ]; [ now split | ].
  cbn [full_but_last]. destruct rest as [ | y rest' ].
  - intros Hx. cbn. rewrite app_nil_r. split; [ lia | intros _; lia ].
  - intros [ Hx Hrest ]. destruct (IH Hrest) as [ Hle Hlt ].
    specialize (Hlt ltac:(discriminate)).
    cbn [List.concat List.length] in *. rewrite length_app.
    split; [ lia | intros _; lia ].
Qed.




(** ** The pause between frames *)













(** *** What [stream_file] sends *)

Lemma frames_sent (output : list byte) (arr : list nat) :
  List.concat (chunks output arr) = output
  /\ Forall (fun data => 0 < List.length data <= chunk_bytes)
       (chunks output arr)
  /\ (arr = [] -> full_but_last chunk_bytes (chunks output arr)).
Proof.
  unfold chunks.
  destruct (reads_concat (S (List.length output)) output arr) as [ Hc Hf ];
    [ lia | ].
  split; [ exact Hc | split; [ exact Hf | ] ].
  intros ->. apply reads_buffered. lia.
Qed.






(** When the whole output is buffered before each read, the frames are
    the chunks of 2048 bytes, the last one shorter. *)
Example stream_file_full_reads :
  map (@List.length byte)
    (frames_of
       (sent_on_websocket
          (final_state
             (stream_file buffered_host "test/test1-paris.m4a" (Finite 1)
                true connected_state)
             connected_state)))
  = [2048; 2048; 904].
Proof. vm_compute. reflexivity. Qed.

(** C7, at the failing input. The decoder writes 4096 bytes, two chunks of
    1024 samples, and three reads are served when 1000 bytes are buffered:
    the connection receives four frames, of 1000, 1000, 1000 and 1096
    bytes, where C7 has one to three frames of 2048 bytes, the last
    one possibly shorter. Nothing is lost: the frames together are the
    decoder output. *)
Theorem C7_short_reads_give_short_frames :
  let run :=
    stream_file short_read_host "test/test1-paris.m4a" (Finite 1) true
      connected_state in
  outcome run = Some (Ok tt)
  /\ map (@List.length byte)
       (frames_of (sent_on_websocket (final_state run connected_state)))
     = [1000; 1000; 1000; 1096]
  /\ List.concat
       (frames_of (sent_on_websocket (final_state run connected_state)))
     = pcm 4096
  /\ chunk_bytes = 2048.
Proof.
  cbv zeta. split; [ vm_compute; reflexivity | split; [ | split ] ].
  - vm_compute. reflexivity.
  - vm_compute. reflexivity.
  - reflexivity.
Qed.



(** X3. Without an open websocket (never connected, or closed), for a
    decoder that runs to its end, [stream_file] still reads the output to
    its end and sleeps after every chunk, sends nothing on any connection
    and returns normally; the commit event that cannot be sent is only
    reported on the console. *)
Theorem X3_stream_file_without_connection (h : host) (file_path : string)
    (f : number) (pause : Q) (send_commit : bool) (st : state) (x : string)
    (proc : process) :
  which_ffmpeg h = Some x ->
  create_subprocess_exec h file_path = Ok proc ->
  runs_to_end h proc = true ->
  pace f = Ok pause ->
  is_open st = false ->
  exists st',
    stream_file h file_path f send_commit st = Some (Ended (Ok tt) st')
    /\ conns st' = conns st
    /\ slept st'
       = slept st ++ repeat pause (List.length (frames_read proc))
    /\ console st'
       = console st
           ++ (if send_commit then [ErrorSendingCommit (commit_error st)]
               else [])
    /\ List.concat (frames_read proc) = stdout proc.
Proof.
  intros Hw Hp Hrun Hpace Hopen.
  rewrite (stream_file_wire h file_path f pause send_commit st x proc
             Hw Hp Hrun Hpace).
  rewrite Hopen, andb_true_r. eexists. split; [ reflexivity | ].
  split; [ | split; [ reflexivity | split; [ reflexivity | ] ] ].
  - cbn. destruct (websocket st); [ | reflexivity ].
    apply list_update_id, append_sent_nil.
  - apply frames_sent.
Qed.

Lemma X3_witness :
  exists st',
    stream_file short_read_host "test/test1-paris.m4a" (Finite 1) true
      (init "sk-test")
    = Some (Ended (Ok tt) st')
    /\ conns st' = []
    /\ slept st'
       = repeat (Qmax 0 (seconds_per_chunk / 1))%Q
           (List.length
              (frames_read {| script := [Out (pcm 4096)];
                              arrivals := [1000; 1000; 1000];
                              returncode := 0 |}))
    /\ console st'
       = [ErrorSendingCommit
            (AttributeError "'NoneType' object has no attribute 'send_str'")]
    /\ List.concat
         (frames_read {| script := [Out (pcm 4096)];
                         arrivals := [1000; 1000; 1000];
                         returncode := 0 |})
       = pcm 4096.
Proof.
  apply (X3_stream_file_without_connection short_read_host
           "test/test1-paris.m4a" (Finite 1)
           (Qmax 0 (seconds_per_chunk / 1))%Q true (init "sk-test")
           "/usr/bin/ffmpeg"
           {| script := [Out (pcm 4096)]; arrivals := [1000; 1000; 1000];
              returncode := 0 |});
    reflexivity.
Defined.



(** The decoder of [noisy_host] has 5000 bytes to write; 3000 of them are
    sent, in two frames, before the call hangs. *)
Example noisy_decoder_run :
  outcome (stream_file noisy_host "test/test1-paris.m4a" (Finite 1) true
             connected_state) = None
  /\ map (@List.length byte)
       (frames_of
          (sent_on_websocket
             (final_state
                (stream_file noisy_host "test/test1-paris.m4a" (Finite 1)
                   true connected_state) connected_state)))
     = [2048; 952]
  /\ List.length (stdout noisy_proc) = 5000.
Proof. repeat split; vm_compute; reflexivity. Qed.



(** ** Connecting *)

Lemma list_update_app {A} (l : list A) (x : A) (i : nat) (f : A -> A) :
  i <> List.length l ->
  list_update (l ++ [x]) i f = list_update l i f ++ [x].
Proof.
  revert i. induction l as [ | a l IH ]; intros [ | i ] H; cbn in *;
    try reflexivity; try lia.
  rewrite IH by lia. reflexivity.
Qed.

Lemma length_dropped (collected : bool) (st : state) :
  List.length (dropped collected st) = List.length (conns st).
Proof.
  unfold dropped. destruct (websocket st); [ | reflexivity ].
  destruct collected; [ apply length_list_update | reflexivity ].
Qed.

(** A [connect] that the network accepts: the new connection comes after
    those that were there, has been sent the session configuration, and is
    the websocket of the transcriber. *)
Lemma connect_ok (collected : bool) (st : state) :
  exists st',
    connect (Ok tt) collected st = (Ok tt, st')
    /\ conns st'
       = dropped collected st
           ++ [{| closed := false; sent := [json_dumps session_config] |}]
    /\ websocket st' = Some (List.length (conns st))
    /\ transcription_buffer st' = transcription_buffer st
    /\ console st' = console st ++ [Connected; SessionConfigured]
    /\ slept st' = slept st.
Proof.
  unfold connect, try_except, bind, ws_connect, rebind_websocket.
  unfold modify.
  cbn [websocket set_session conns set_conns sessions].
  set (new := {| closed := false; sent := [] |}).
  set (s0 := set_session (Some (sessions st)) (S (sessions st)) st).
  assert (E : match websocket st with
              | Some old =>
                  if collected && negb (old =? List.length (conns st))%nat
                  then set_conns
                         (list_update (conns st ++ [new]) old close_connection)
                         (set_conns (conns st ++ [new]) s0)
                  else set_conns (conns st ++ [new]) s0
              | None => set_conns (conns st ++ [new]) s0
              end
              = set_conns (dropped collected st ++ [new]) s0).
  { unfold dropped. destruct (websocket st) as [ old | ]; [ | reflexivity ].
    destruct collected; cbn [andb]; [ | reflexivity ].
    destruct (Nat.eqb_spec old (List.length (conns st))) as [ -> | Hne ];
      cbn [negb].
    - f_equal. f_equal. symmetry. clear.
      induction (conns st) as [ | a l IH ]; [ reflexivity | ].
      cbn. now rewrite IH.
    - unfold set_conns. cbn. now rewrite list_update_app. }
  rewrite E. clear E.
  rewrite print_record by reflexivity.
  unfold send_str, ws_closed.
  cbn [conns record_events set_websocket set_conns].
  rewrite <- (length_dropped collected st).
  rewrite (nth_error_last (dropped collected st) new).
  rewrite (list_update_last (dropped collected st) new).
  subst new. cbn [closed sent app].
  rewrite print_record by reflexivity.
  eexists. split; [ reflexivity | ]. cbn.
  repeat split; cbn [app];
    rewrite ?length_dropped, ?app_nil_r, <- ?app_assoc; reflexivity.
Qed.

(** A [connect] that the network refuses raises, the exception of the
    network when its message can be printed, and touches neither the
    connections nor the websocket of the transcriber. *)
Lemma connect_refused (e : exn) (collected : bool) (st : state) :
  exists e',
    connect (Raise e) collected st
    = (Raise e',
       match unprintable (FailedToConnect e) with
       | Some _ => set_session (Some (sessions st)) (S (sessions st)) st
       | None =>
           set_console (console st ++ [FailedToConnect e])
             (set_session (Some (sessions st)) (S (sessions st)) st)
       end)
    /\ (encodable (exn_str e) = true -> e' = e).
Proof.
  unfold connect, try_except, bind, modify, ws_connect, raise, print.
  destruct (unprintable (FailedToConnect e)) as [ e' | ] eqn:E.
  - exists e'. split; [ reflexivity | ]. intros Henc.
    rewrite (printable_line (FailedToConnect e) 21 (exn_str e) eq_refl Henc)
      in E. discriminate.
  - exists e. split; [ reflexivity | reflexivity ].
Qed.

(** C8, as the code has it. [connect] has no guard: whatever the state,
    a call that the network accepts opens one more connection, makes it
    the websocket of the transcriber and sends the session configuration
    as the first frame on it, so that every audio frame sent afterwards
    comes after the configuration; nothing is sent on the connections
    opened before.  A call that the network refuses raises and opens
    nothing. *)
Theorem C8_connect_opens_a_new_connection (collected : bool) (st : state) :
  fst (connect (Ok tt) collected st) = Ok tt
  /\ List.length (conns (snd (connect (Ok tt) collected st)))
     = S (List.length (conns st))
  /\ nth_error (conns (snd (connect (Ok tt) collected st)))
       (List.length (conns st))
     = Some {| closed := false; sent := [json_dumps session_config] |}
  /\ websocket (snd (connect (Ok tt) collected st))
     = Some (List.length (conns st))
  /\ sent_on_websocket (snd (connect (Ok tt) collected st))
     = [json_dumps session_config]
  /\ (forall event : json,
        sent_on_websocket
          (snd (_send_audio_data event (snd (connect (Ok tt) collected st))))
        = [json_dumps session_config; json_dumps event])
  /\ map sent
       (firstn (List.length (conns st))
          (conns (snd (connect (Ok tt) collected st))))
     = map sent (conns st)
  /\ (forall e : exn,
        (exists e', fst (connect (Raise e) collected st) = Raise e')
        /\ conns (snd (connect (Raise e) collected st)) = conns st
        /\ websocket (snd (connect (Raise e) collected st)) = websocket st).
Proof.
  destruct (connect_ok collected st) as (st' & E & Hc & Hw & _). rewrite E.
  cbn [fst snd].
  pose proof (length_dropped collected st) as Hlen.
  assert (Hnew : nth_error (conns st') (List.length (conns st))
                 = Some {| closed := false;
                           sent := [json_dumps session_config] |}).
  { rewrite Hc, <- Hlen. apply nth_error_last. }
  assert (Hsent : sent_on_websocket st' = [json_dumps session_config]).
  { unfold sent_on_websocket. now rewrite Hw, Hnew. }
  assert (Hopen : is_open st' = true).
  { unfold is_open, ws_closed. now rewrite Hw, Hnew. }
  split; [ reflexivity | ].
  split; [ rewrite Hc, length_app, Hlen; cbn; lia | ].
  split; [ exact Hnew | split; [ exact Hw | split; [ exact Hsent | ] ] ].
  split; [ | split ].
  - intros event. rewrite send_audio_data_wire, Hopen. cbn [snd].
    rewrite sent_on_websocket_wire by exact Hopen. now rewrite Hsent.
  - rewrite Hc, <- Hlen, firstn_app, Nat.sub_diag, firstn_all. cbn [firstn].
    rewrite app_nil_r. unfold dropped.
    destruct (websocket st) as [ old | ]; [ | reflexivity ].
    destruct collected; [ | reflexivity ].
    generalize (conns st). intros l. revert old.
    induction l as [ | a l IH ]; intros [ | old ]; cbn; try reflexivity.
    now rewrite IH.
  - intros e. destruct (connect_refused e collected st) as (e' & -> & _).
    cbn [fst snd]. split; [ now exists e' | ].
    destruct (unprintable (FailedToConnect e)); split; reflexivity.
Qed.

(** C8, as stated, fails: on a transcriber that is already connected a
    second [connect] neither fails nor is a no-op, whether or not the run
    time has finalised the first websocket; it returns normally, a second
    connection has been opened and sent the session configuration, and the
    websocket of the transcriber is the new one. *)
Lemma C8_counterexample :
  is_open connected_state = true
  /\ websocket connected_state = Some 0
  /\ List.length (conns connected_state) = 1
  /\ fst (connect (Ok tt) false connected_state) = Ok tt
  /\ websocket (snd (connect (Ok tt) false connected_state)) = Some 1
  /\ map sent (conns (snd (connect (Ok tt) false connected_state)))
     = [[json_dumps session_config]; [json_dumps session_config]]
  /\ fst (connect (Ok tt) true connected_state) = Ok tt
  /\ websocket (snd (connect (Ok tt) true connected_state)) = Some 1
  /\ map sent (conns (snd (connect (Ok tt) true connected_state)))
     = [[json_dumps session_config]; [json_dumps session_config]].
Proof. repeat split. Qed.

(** ** The batch call *)

(** C9, as the code has it. [translate_audio] never raises and always
    returns a string: the text of the service when the call succeeds, the
    message [Error: Audio file not found at <path>] when the path does not
    exist, and the message [An error occurred: <e>] when opening the file
    or calling the service raises [e]. *)
Theorem C9_translate_audio_returns_a_string (env : batch_env)
    (file_path prompt : string) :
  (exists s, translate_audio env file_path prompt = Ok s)
  /\ (os_path_exists env file_path = false ->
      translate_audio env file_path prompt
      = Ok ("Error: Audio file not found at " ++ file_path)%string)
  /\ (forall audio text,
        os_path_exists env file_path = true ->
        open_rb env file_path = Ok audio ->
        translations_create env audio prompt = Ok text ->
        translate_audio env file_path prompt = Ok text)
  /\ (forall audio e,
        os_path_exists env file_path = true ->
        open_rb env file_path = Ok audio ->
        translations_create env audio prompt = Raise e ->
        translate_audio env file_path prompt
        = Ok ("An error occurred: " ++ exn_str e)%string)
  /\ (forall e,
        os_path_exists env file_path = true ->
        open_rb env file_path = Raise e ->
        translate_audio env file_path prompt
        = Ok ("An error occurred: " ++ exn_str e)%string).
Proof.
  unfold translate_audio. split; [ | split; [ | split; [ | split ] ] ].
  - destruct (os_path_exists env file_path); cbn [negb];
      [ | eexists; reflexivity ].
    destruct (open_rb env file_path) as [ audio | e ];
      [ | eexists; reflexivity ].
    destruct (translations_create env audio prompt); eexists; reflexivity.
  - now intros ->.
  - now intros audio text -> -> ->.
  - now intros audio e -> -> ->.
  - now intros e -> ->.
Qed.

Lemma C9_witness :
  translate_audio no_file_env "test/test1-paris.m4a"
    "This is a technical discussion about artificial intelligence."
  = Ok "Error: Audio file not found at test/test1-paris.m4a"
  /\ translate_audio service_down_env "test/test1-paris.m4a"
       "This is a technical discussion about artificial intelligence."
     = Ok "An error occurred: Connection error.".
Proof.
  split.
  - apply (C9_translate_audio_returns_a_string no_file_env
             "test/test1-paris.m4a"
             "This is a technical discussion about artificial intelligence.").
    reflexivity.
  - apply (proj1 (proj2 (proj2 (proj2
             (C9_translate_audio_returns_a_string service_down_env
                "test/test1-paris.m4a"
                "This is a technical discussion about artificial intelligence."))))
             (pcm 16) (APIError "Connection error."));
      reflexivity.
Defined.

(** C9, as stated, fails: with the file missing, and with the service
    down, the call does not raise; it returns a string, and the string
    returned for the missing file is one the service can return as the
    text of a successful call. *)
Lemma C9_counterexample :
  os_path_exists no_file_env "test/test1-paris.m4a" = false
  /\ translate_audio no_file_env "test/test1-paris.m4a" "prompt"
     = Ok "Error: Audio file not found at test/test1-paris.m4a"
  /\ translate_audio service_down_env "test/test1-paris.m4a" "prompt"
     = Ok "An error occurred: Connection error."
  /\ translate_audio echo_env "test/test1-paris.m4a" "prompt"
     = translate_audio no_file_env "test/test1-paris.m4a" "prompt".
Proof. repeat split. Qed.

(** X9. A [connect] that the network refuses raises, the exception of the
    network itself after printing the failure when its message can be
    printed; it opens and closes nothing and leaves the websocket of the
    transcriber in place, so that audio sent afterwards still goes out on
    the connection held before; the client session it created replaces the
    one the transcriber held. *)
Theorem X9_failed_connect_keeps_the_connection (e : exn) (collected : bool)
    (st : state) (event : json) :
  is_open st = true ->
  (encodable (exn_str e) = true ->
   connect (Raise e) collected st
   = (Raise e,
      set_console (console st ++ [FailedToConnect e])
        (set_session (Some (sessions st)) (S (sessions st)) st)))
  /\ (exists e', fst (connect (Raise e) collected st) = Raise e')
  /\ conns (snd (connect (Raise e) collected st)) = conns st
  /\ websocket (snd (connect (Raise e) collected st)) = websocket st
  /\ session (snd (connect (Raise e) collected st)) = Some (sessions st)
  /\ sent_on_websocket
       (snd (_send_audio_data event (snd (connect (Raise e) collected st))))
     = sent_on_websocket st ++ [json_dumps event].
Proof.
  intros Hopen.
  destruct (connect_refused e collected st) as (e' & E & He).
  split.
  { intros Henc. rewrite E, (He Henc).
    now rewrite (printable_line (FailedToConnect e) 21 (exn_str e) eq_refl
                   Henc). }
  rewrite E. cbn [fst snd].
  split; [ now exists e' | ].
  assert (Ho : is_open
                 match unprintable (FailedToConnect e) with
                 | Some _ =>
                     set_session (Some (sessions st)) (S (sessions st)) st
                 | None =>
                     set_console (console st ++ [FailedToConnect e])
                       (set_session (Some (sessions st)) (S (sessions st)) st)
                 end = true)
    by (destruct (unprintable (FailedToConnect e)); exact Hopen).
  rewrite send_audio_data_wire, Ho. cbn [snd].
  rewrite sent_on_websocket_wire by exact Ho.
  destruct (unprintable (FailedToConnect e)); repeat split.
Qed.

Lemma X9_witness :
  sent_on_websocket
    (snd (_send_audio_data (audio_event (pcm 4))
            (snd (connect (Raise (ClientError "Cannot connect to host"))
                    false connected_state))))
  = sent_on_websocket connected_state ++ [json_dumps (audio_event (pcm 4))].
Proof.
  apply (X9_failed_connect_keeps_the_connection
           (ClientError "Cannot connect to host") false connected_state
           (audio_event (pcm 4))).
  vm_compute. reflexivity.
Defined.

(** ** More on the dispatcher and the receive loop *)



(** X5. An event whose type is none of the six the handler knows, a
    missing type and a type that is not a string included, is ignored
    without a trace: the handler returns normally and the state, console
    included, is as before. *)
Theorem X5_unknown_event_is_ignored (d : dict) (st : state) :
  (forall t, In t known_types -> type_of d <> JStr t) ->
  _handle_response (JObj d) st = (Ok tt, st).
Proof.
  intros H. unfold _handle_response, bind, py_get, ret. fold (type_of d).
  assert (E : forall t, In t known_types -> eq_str (type_of d) t = false).
  { intros t Ht. specialize (H t Ht). unfold eq_str.
    destruct (type_of d) as [ | | | | s | | ]; try reflexivity.
    destruct (String.eqb_spec s t); [ | reflexivity ]. now subst s. }
  rewrite !E by (cbn; tauto). reflexivity.
Qed.

Lemma X5_witness :
  _handle_response
    (JObj [("type", JStr "response.audio_transcript.delta");
           ("delta", JStr "hel")]) connected_state
  = (Ok tt, connected_state).
Proof.
  apply (X5_unknown_event_is_ignored
           [("type", JStr "response.audio_transcript.delta");
            ("delta", JStr "hel")] connected_state).
  intros t Ht. cbn in Ht.
  repeat (destruct Ht as [ <- | Ht ]; [ discriminate | ]). contradiction.
Defined.

(** X6. A text frame that parses to something other than an object (an
    array, a string, a number, [null]) ends the receive loop: the
    [AttributeError] of the handler is caught by the outer handler of
    [listen_for_responses], which prints it and returns; the frames after
    it are not read and the transcript buffer is as before. *)
Theorem X6_non_object_frame_stops_the_loop (py : interpreter)
    (payload : string) (v : json) (rest : list WSMessage) (st : state)
    (w : nat) :
  websocket st = Some w ->
  json_loads_on py payload = Scanned v ->
  (forall d, v <> JObj d) ->
  exists msg,
    listen_for_responses py (text_frame payload :: rest) st
    = (Ok (Caught (AttributeError msg)),
       record_events [] [ErrorListening (AttributeError msg)] st).
Proof.
  intros Hw Hp Hv.
  destruct (handle_non_dict v st Hv) as (msg & E).
  exists msg. rewrite (listen_for_responses_connected py _ st w Hw).
  cbn [listen_loop text_frame msg_type msg_data].
  rewrite Hp. unfold bind. now rewrite E.
Qed.

Lemma X6_witness :
  exists msg,
    listen_for_responses cpython
      (text_frame "null" :: [text_frame hello_frame]) connected_state
    = (Ok (Caught (AttributeError msg)),
       record_events [] [ErrorListening (AttributeError msg)]
         connected_state).
Proof.
  apply (X6_non_object_frame_stops_the_loop cpython "null" JNull
           [text_frame hello_frame] connected_state 0).
  - reflexivity.
  - reflexivity.
  - intros d. discriminate.
Defined.

Lemma listen_loop_stop (py : interpreter) (m : WSMessage)
    (pre post : list WSMessage) :
  msg_type m = ERROR \/ msg_type m = CLOSE ->
  forall st,
    listen_loop py (pre ++ m :: post) st = listen_loop py (pre ++ [m]) st.
Proof.
  intros Hm st. rewrite !listen_loop_app.
  destruct (listen_loop py pre st) as [ [ [] | e ] st1 ]; try reflexivity.
  cbn [listen_loop]. destruct Hm as [ -> | -> ]; reflexivity.
Qed.

(** X7. An ERROR or a CLOSE message ends the receive loop: whatever
    follows it on the websocket, text frames with transcripts included, is
    not read. *)
Theorem X7_nothing_is_read_after_error_or_close (py : interpreter)
    (m : WSMessage) (pre post : list WSMessage) (st : state) :
  msg_type m = ERROR \/ msg_type m = CLOSE ->
  listen_for_responses py (pre ++ m :: post) st
  = listen_for_responses py (pre ++ [m]) st.
Proof.
  intros Hm. unfold listen_for_responses, try_except, bind, get.
  destruct (websocket st); [ | reflexivity ].
  now rewrite (listen_loop_stop py m pre post Hm).
Qed.

Lemma X7_witness :
  listen_for_responses cpython
    ([text_frame hello_frame] ++ {| msg_type := CLOSE; msg_data := "" |}
       :: [text_frame world_frame]) connected_state
  = listen_for_responses cpython
      ([text_frame hello_frame] ++ [{| msg_type := CLOSE; msg_data := "" |}])
      connected_state.
Proof.
  apply (X7_nothing_is_read_after_error_or_close cpython
           {| msg_type := CLOSE; msg_data := "" |}
           [text_frame hello_frame] [text_frame world_frame]
           connected_state).
  right. reflexivity.
Defined.

Lemma listen_loop_drop (py : interpreter) (m : WSMessage)
    (pre post : list WSMessage) :
  msg_type m <> TEXT -> msg_type m <> ERROR -> msg_type m <> CLOSE ->
  forall st,
    listen_loop py (pre ++ m :: post) st = listen_loop py (pre ++ post) st.
Proof.
  intros H1 H2 H3 st. rewrite !listen_loop_app.
  destruct (listen_loop py pre st) as [ [ [] | e ] st1 ]; try reflexivity.
  cbn [listen_loop]. destruct (msg_type m); try reflexivity; contradiction.
Qed.

(** X8. A message that is neither TEXT nor ERROR nor CLOSE (a binary
    frame, a ping) is dropped without a trace, whatever it carries: the
    receive loop does exactly what it does without the message. *)
Theorem X8_other_messages_are_dropped (py : interpreter) (m : WSMessage)
    (pre post : list WSMessage) (st : state) :
  msg_type m <> TEXT -> msg_type m <> ERROR -> msg_type m <> CLOSE ->
  listen_for_responses py (pre ++ m :: post) st
  = listen_for_responses py (pre ++ post) st.
Proof.
  intros H1 H2 H3. unfold listen_for_responses, try_except, bind, get.
  destruct (websocket st); [ | reflexivity ].
  now rewrite (listen_loop_drop py m pre post H1 H2 H3).
Qed.

Lemma X8_witness :
  listen_for_responses cpython
    ([text_frame hello_frame]
       ++ {| msg_type := BINARY; msg_data := world_frame |}
       :: [text_frame empty_frame]) connected_state
  = listen_for_responses cpython
      ([text_frame hello_frame] ++ [text_frame empty_frame]) connected_state.
Proof.
  apply (X8_other_messages_are_dropped cpython
           {| msg_type := BINARY; msg_data := world_frame |}
           [text_frame hello_frame] [text_frame empty_frame]
           connected_state);
    discriminate.
Defined.

(** X21. What [json.loads] raises besides [JSONDecodeError], the
    [RecursionError] of a payload nested too deep for the interpreter and the
    [ValueError] of an integer with more digits than its limit, is not
    caught around the handler: it ends the receive loop, is printed by the
    outer handler, and the frames that follow are not read.  No warning
    about invalid JSON is logged. *)
Theorem X21_limits_of_the_interpreter_end_the_loop (py : interpreter)
    (payload : string) (e : exn) (rest : list WSMessage) (st : state)
    (w : nat) :
  websocket st = Some w ->
  json_loads_on py payload = GaveUp e ->
  listen_for_responses py (text_frame payload :: rest) st
  = (Ok (Caught e), record_events [] [ErrorListening e] st).
Proof.
  intros Hw Hp. rewrite (listen_for_responses_connected py _ st w Hw).
  cbn [listen_loop text_frame msg_type msg_data]. now rewrite Hp.
Qed.

Lemma X21_witness :
  listen_for_responses cpython
    (text_frame (repeat_char "7" 4301) :: [text_frame hello_frame])
    connected_state
  = (Ok (Caught
           (ValueError
              "Exceeds the limit (4300 digits) for integer string conversion: value has 4301 digits; use sys.set_int_max_str_digits() to increase the limit")),
     record_events []
       [ErrorListening
          (ValueError
             "Exceeds the limit (4300 digits) for integer string conversion: value has 4301 digits; use sys.set_int_max_str_digits() to increase the limit")]
       connected_state).
Proof.
  apply (X21_limits_of_the_interpreter_end_the_loop cpython
           (repeat_char "7" 4301)
           (ValueError
              "Exceeds the limit (4300 digits) for integer string conversion: value has 4301 digits; use sys.set_int_max_str_digits() to increase the limit")
           [text_frame hello_frame] connected_state 0).
  - reflexivity.
  - vm_compute. reflexivity.
Defined.

(** ** The life cycle *)

Lemma released_is_closed (st : state) : is_open (released st) = false.
Proof.
  unfold released, is_open.
  destruct (websocket st) as [ w | ] eqn:Hw; cbn; [ | now rewrite Hw ].
  destruct (ws_closed w st) eqn:Hc; cbn; rewrite Hw.
  - unfold ws_closed in *. cbn. now rewrite Hc.
  - unfold ws_closed in *. cbn. rewrite nth_error_list_update_same.
    now destruct (nth_error (conns st) w).
Qed.

Lemma released_twice (st : state) : released (released st) = released st.
Proof.
  pose proof (released_is_closed st) as H. unfold is_open in H.
  unfold released at 1.
  destruct (websocket (released st)) as [ w | ] eqn:Hw.
  - apply negb_false_iff in H. rewrite H. cbn [negb].
    unfold released. destruct (websocket st) as [ w0 | ];
      [ destruct (negb (ws_closed w0 st)) | ]; reflexivity.
  - unfold released. destruct (websocket st) as [ w0 | ];
      [ destruct (negb (ws_closed w0 st)) | ]; reflexivity.
Qed.

Lemma open_count_close (l : list connection) (w : nat) (c : connection) :
  nth_error l w = Some c -> closed c = false ->
  S (List.length
       (filter (fun c => negb (closed c)) (list_update l w close_connection)))
  = List.length (filter (fun c => negb (closed c)) l).
Proof.
  revert w. induction l as [ | a l IH ]; intros [ | w ] Hn Hc; cbn in *;
    try discriminate.
  - injection Hn as ->. now rewrite Hc.
  - destruct (negb (closed a)); cbn; now rewrite (IH w Hn Hc).
Qed.

Lemma released_open_connections (st : state) :
  open_connections (released st) + (if is_open st then 1 else 0)
  = open_connections st.
Proof.
  unfold released, is_open, open_connections, ws_closed.
  destruct (websocket st) as [ w | ]; cbn; [ | lia ].
  destruct (nth_error (conns st) w) as [ c | ] eqn:Hn; cbn; [ | lia ].
  destruct (closed c) eqn:Hc; cbn; [ lia | ].
  rewrite <- (open_count_close _ _ _ Hn Hc). lia.
Qed.

Lemma released_sent (st : state) :
  map sent (conns (released st)) = map sent (conns st).
Proof.
  unfold released.
  destruct (websocket st) as [ w | ]; [ | reflexivity ].
  destruct (negb (ws_closed w st)); [ | reflexivity ]. cbn.
  generalize (conns st). intros l. revert w.
  induction l as [ | a l IH ]; intros [ | w ]; cbn; try reflexivity.
  now rewrite IH.
Qed.

Lemma say_record (l : lifecycle_line) (r : recorder) :
  unsayable l = None -> say l r = record (Said l) r.
Proof. intros H. unfold say. now rewrite H. Qed.

Lemma sayable (e : exn) (before : nat) :
  encodable (exn_str e) = true ->
  encode_error before (utf8_decode (exn_str e)) = None.
Proof. intros H. now apply encode_error_none. Qed.

Lemma cleanup_without_device (d : device) (r : recorder) :
  audio_stream r = false -> pyaudio_instance r = false ->
  cleanup d r
  = (Ok tt,
     {| core := released (core r);
        pyaudio_instance := false; audio_stream := false;
        trace := trace r ++ [Said RecordingStopped]
                   ++ match session (core r) with
                      | Some s => [SessionClosed s]
                      | None => []
                      end
                   ++ [Said CleanupCompleted] |}).
Proof.
  intros Ha Hp. destruct r as [st p a tr]. cbn in Ha, Hp. subst a p.
  unfold cleanup, stop_recording, bindR, lift, say, record, modify,
    close_websocket. cbn.
  unfold released.
  destruct (websocket st) as [ w | ]; cbn.
  - change (ws_closed w (set_is_recording false st)) with (ws_closed w st).
    destruct (ws_closed w st); cbn;
      destruct (session st); cbn; now rewrite <- ?app_assoc.
  - destruct (session st); cbn; now rewrite <- ?app_assoc.
Qed.

(** X10. With no capture device set up (the file-streaming use), [cleanup]
    never raises: it clears the recording flag, closes the websocket the
    transcriber holds and its client session, and touches no other
    connection nor what was sent; afterwards audio is dropped without being
    sent, and a second [cleanup] returns normally and changes neither flag
    nor connections. *)
Theorem X10_cleanup_releases_the_connection (d : device) (r : recorder) :
  audio_stream r = false -> pyaudio_instance r = false ->
  exists r',
    cleanup d r = (Ok tt, r')
    /\ is_open (core r') = false
    /\ is_recording (core r') = false
    /\ open_connections (core r') + (if is_open (core r) then 1 else 0)
       = open_connections (core r)
    /\ map sent (conns (core r')) = map sent (conns (core r))
    /\ (forall event, _send_audio_data event (core r') = (Ok tt, core r'))
    /\ fst (cleanup d r') = Ok tt
    /\ core (snd (cleanup d r')) = core r'.
Proof.
  intros Ha Hp. rewrite (cleanup_without_device d r Ha Hp).
  eexists. split; [ reflexivity | ]. cbn [core].
  split; [ apply released_is_closed | ].
  split; [ unfold released; destruct (websocket (core r)) as [ w | ];
           [ destruct (negb (ws_closed w (core r))) | ]; reflexivity | ].
  split; [ apply released_open_connections | ].
  split; [ apply released_sent | ].
  split.
  - intros event. rewrite send_audio_data_wire, released_is_closed.
    now rewrite wire_nil.
  - rewrite cleanup_without_device by reflexivity. cbn [fst snd core].
    split; [ reflexivity | apply released_twice ].
Qed.

Lemma X10_witness :
  exists r',
    cleanup good_device (set_core connected_state (new_recorder "sk-test"))
    = (Ok tt, r')
    /\ is_open (core r') = false
    /\ is_recording (core r') = false
    /\ open_connections (core r') + 1 = 1
    /\ map sent (conns (core r')) = [[json_dumps session_config]]
    /\ (forall event, _send_audio_data event (core r') = (Ok tt, core r'))
    /\ fst (cleanup good_device r') = Ok tt
    /\ core (snd (cleanup good_device r')) = core r'.
Proof.
  apply (X10_cleanup_releases_the_connection good_device
           (set_core connected_state (new_recorder "sk-test")));
    reflexivity.
Defined.

(** X11. [cleanup] has no handler of its own: when the capture stream is
    set and [stop_stream] raises, the exception leaves [cleanup] at once,
    with the recording flag cleared but the websocket and the client
    session as they were, not closed; when it is [close] on the stream that
    raises, the websocket is closed already but the PyAudio instance is
    not terminated. *)
Theorem X11_cleanup_stops_at_the_first_failure (d : device) (r : recorder)
    (e : exn) :
  audio_stream r = true ->
  (stop_stream d = Raise e ->
   cleanup d r
   = (Raise e,
      {| core := set_is_recording false (core r);
         pyaudio_instance := pyaudio_instance r; audio_stream := true;
         trace := trace r |}))
  /\ (stop_stream d = Ok tt -> close_stream d = Raise e ->
      fst (cleanup d r) = Raise e
      /\ core (snd (cleanup d r)) = released (core r)
      /\ ~ In PyAudioTerminated
            (skipn (List.length (trace r)) (trace (snd (cleanup d r))))
      /\ ~ In (Said CleanupCompleted)
            (skipn (List.length (trace r)) (trace (snd (cleanup d r))))).
Proof.
  intros Ha. destruct r as [st p a tr]. cbn in Ha. subst a. split.
  - intros Hs. unfold cleanup, stop_recording, bindR, lift, say, record,
      modify, device_call. cbn. now rewrite Hs.
  - intros Hs Hc. unfold cleanup, stop_recording, bindR, lift, say, record,
      modify, device_call, close_websocket. cbn. rewrite Hs. cbn.
    assert (Hskip : forall (l extra : list lifecycle_event),
               skipn (List.length l) (l ++ extra) = extra).
    { intros l extra. induction l; [ reflexivity | exact IHl ]. }
    unfold released.
    destruct (websocket st) as [ w | ]; cbn.
    + change (ws_closed w (set_is_recording false st)) with (ws_closed w st).
      destruct (ws_closed w st); cbn; destruct (session st); cbn;
        rewrite Hc; cbn; rewrite <- ?app_assoc, Hskip;
        (split; [ reflexivity | split; [ reflexivity | ] ]);
        cbn; split; intros H;
        repeat (destruct H as [ H | H ]; [ discriminate H | ]); exact H.
    + destruct (session st); cbn; rewrite Hc; cbn;
        rewrite <- ?app_assoc, Hskip;
        (split; [ reflexivity | split; [ reflexivity | ] ]);
        cbn; split; intros H;
        repeat (destruct H as [ H | H ]; [ discriminate H | ]); exact H.
Qed.

Lemma X11_witness :
  cleanup {| stop_stream := Raise (OSError "Stream not open");
             close_stream := Ok tt; terminate := Ok tt |}
    {| core := connected_state; pyaudio_instance := true;
       audio_stream := true; trace := [PyAudioCreated; StreamOpened] |}
  = (Raise (OSError "Stream not open"),
     {| core := set_is_recording false connected_state;
        pyaudio_instance := true; audio_stream := true;
        trace := [PyAudioCreated; StreamOpened] |}).
Proof.
  apply (X11_cleanup_stops_at_the_first_failure
           {| stop_stream := Raise (OSError "Stream not open");
              close_stream := Ok tt; terminate := Ok tt |}
           {| core := connected_state; pyaudio_instance := true;
              audio_stream := true; trace := [PyAudioCreated; StreamOpened] |}
           (OSError "Stream not open"));
    reflexivity.
Defined.

Lemma open_count_list_update (l : list connection) (w : nat) :
  List.length
    (filter (fun c => negb (closed c)) (list_update l w close_connection))
  + match nth_error l w with
    | Some c => if closed c then 0 else 1
    | None => 0
    end
  = List.length (filter (fun c => negb (closed c)) l).
Proof.
  revert w. induction l as [ | a l IH ]; intros [ | w ]; cbn;
    try reflexivity.
  - destruct (closed a); cbn; lia.
  - specialize (IH w). destruct (negb (closed a)); cbn; lia.
Qed.

Lemma open_count_dropped (collected : bool) (st : state) :
  List.length (filter (fun c => negb (closed c)) (dropped collected st))
  + (if collected && is_open st then 1 else 0)
  = open_connections st.
Proof.
  unfold dropped, is_open, open_connections, ws_closed.
  destruct (websocket st) as [ w | ];
    [ | destruct collected; cbn; lia ].
  destruct collected; cbn [andb]; [ | lia ].
  rewrite <- (open_count_list_update (conns st) w).
  destruct (nth_error (conns st) w) as [ c | ]; [ | reflexivity ].
  destruct (closed c); reflexivity.
Qed.

Lemma open_connections_connect (collected : bool) (st : state) :
  open_connections (snd (connect (Ok tt) collected st))
  + (if collected && is_open st then 1 else 0)
  = S (open_connections st)
  /\ is_open (snd (connect (Ok tt) collected st)) = true.
Proof.
  destruct (connect_ok collected st) as (st' & E & Hc & Hw & _).
  rewrite E. cbn [snd]. split.
  - pose proof (open_count_dropped collected st) as H.
    unfold open_connections at 1. rewrite Hc, filter_app, length_app. cbn.
    lia.
  - unfold is_open, ws_closed.
    rewrite Hw, Hc, <- (length_dropped collected st), nth_error_last.
    reflexivity.
Qed.

(** X12. [cleanup] closes only the websocket the transcriber holds.  After
    two successful calls of [connect] and a [cleanup], the connection
    opened by the second call is closed; [cleanup] has not touched the one
    opened by the first call, which is closed exactly when the run time
    finalised it as the second call rebound [self.websocket]: when
    something still refers to it (the task that listens on it), it stays
    open after [cleanup]. *)
Theorem X12_cleanup_closes_the_held_websocket_only (d : device)
    (r : recorder) (c1 c2 : bool) :
  audio_stream r = false -> pyaudio_instance r = false ->
  let st1 := snd (connect (Ok tt) c1 (core r)) in
  let st2 := snd (connect (Ok tt) c2 st1) in
  fst (cleanup d (set_core st2 r)) = Ok tt
  /\ option_map closed
       (nth_error (conns (core (snd (cleanup d (set_core st2 r)))))
          (S (List.length (conns (core r)))))
     = Some true
  /\ option_map closed
       (nth_error (conns (core (snd (cleanup d (set_core st2 r)))))
          (List.length (conns (core r))))
     = Some c2
  /\ open_connections (core (snd (cleanup d (set_core st2 r))))
     + (if c2 then 1 else 0)
     = open_connections st1.
Proof.
  intros Ha Hp. cbv zeta.
  set (st1 := snd (connect (Ok tt) c1 (core r))).
  set (st2 := snd (connect (Ok tt) c2 st1)).
  rewrite (cleanup_without_device d (set_core st2 r) Ha Hp).
  cbn [fst snd core set_core].
  destruct (open_connections_connect c1 (core r)) as [ _ Ho1 ].
  fold st1 in Ho1.
  destruct (open_connections_connect c2 st1) as [ H2 Ho ].
  fold st2 in H2, Ho. rewrite Ho1, andb_true_r in H2.
  pose proof (released_open_connections st2) as Hr. rewrite Ho in Hr.
  destruct (connect_ok c1 (core r)) as (s1 & E1 & Hc1 & Hw1 & _).
  destruct (connect_ok c2 s1) as (s2 & E2 & Hc2 & Hw2 & _).
  assert (st1 = s1) by (unfold st1; now rewrite E1). subst s1.
  assert (st2 = s2) by (unfold st2; now rewrite E2). subst s2.
  clear E1 E2.
  assert (Hlen : List.length (conns st1) = S (List.length (conns (core r)))).
  { rewrite Hc1, length_app, length_dropped. cbn. lia. }
  split; [ reflexivity | ].
  split; [ | split; [ | destruct c2; lia ] ].
  - unfold released. rewrite Hw2.
    unfold is_open in Ho. rewrite Hw2 in Ho. rewrite Ho.
    cbn [conns set_conns]. rewrite Hlen, nth_error_list_update_same.
    rewrite Hc2, <- Hlen, <- (length_dropped c2 st1), nth_error_last.
    reflexivity.
  - unfold released. rewrite Hw2.
    unfold is_open in Ho. rewrite Hw2 in Ho. rewrite Ho.
    cbn [conns set_conns].
    rewrite nth_error_list_update_other by lia.
    rewrite Hc2, nth_error_app1 by (rewrite length_dropped; lia).
    unfold dropped. rewrite Hw1.
    destruct c2.
    + rewrite nth_error_list_update_same.
      now rewrite Hc1, <- (length_dropped c1 (core r)), nth_error_last.
    + now rewrite Hc1, <- (length_dropped c1 (core r)), nth_error_last.
Qed.

Lemma X12_witness :
  open_connections
    (core (snd (cleanup good_device
                  (set_core
                     (snd (connect (Ok tt) false
                             (snd (connect (Ok tt) false
                                     (core (new_recorder "sk-test"))))))
                     (new_recorder "sk-test")))))
  + 0
  = 1.
Proof.
  apply (X12_cleanup_closes_the_held_websocket_only good_device
           (new_recorder "sk-test") false false); reflexivity.
Defined.

(** ** Capturing from the microphone *)

Lemma lift_run {A} (m : M A) (r : recorder) :
  lift m r = (fst (m (core r)), set_core (snd (m (core r))) r).
Proof. unfold lift. now destruct (m (core r)). Qed.






(** X14. [stop_recording] clears the recording flag before it touches the
    device, so the flag is cleared even when [stop_stream] raises; from
    then on the capture loop makes no turn, whatever the device has to
    deliver; and the websocket is left as it is, open if it was open. *)
Theorem X14_stop_recording_ends_capture (d : device) (r : recorder)
    (ticks : list (result (list byte))) :
  is_recording (core (snd (stop_recording d r))) = false
  /\ _audio_capture_loop ticks (snd (stop_recording d r))
     = (Ok tt, snd (stop_recording d r))
  /\ conns (core (snd (stop_recording d r))) = conns (core r)
  /\ is_open (core (snd (stop_recording d r))) = is_open (core r).
Proof.
  assert (E : core (snd (stop_recording d r)) = set_is_recording false (core r)).
  { destruct r as [st p a tr].
    unfold stop_recording, bindR, lift, say, record, modify, device_call.
    cbn. destruct a; [ destruct (stop_stream d) | ]; reflexivity. }
  split; [ now rewrite E | split; [ | now rewrite E ] ].
  destruct ticks as [ | tick rest ]; [ reflexivity | ].
  cbn [_audio_capture_loop]. now rewrite E.
Qed.

Lemma setup_audio_open_fails (a : audio_host) (r : recorder) (e : exn) :
  pyaudio_module a = true -> new_pyaudio a = Ok tt ->
  open_stream a = Raise e -> encodable (exn_str e) = true ->
  setup_audio a r
  = (Raise e,
     {| core := core r; pyaudio_instance := true;
        audio_stream := audio_stream r;
        trace := trace r ++ [PyAudioCreated; Said (FailedToInitializeAudio e)]
     |}).
Proof.
  intros Hm Hn Ho He.
  unfold setup_audio, bindR, try_exceptR, device_call.
  rewrite Hm, Hn, Ho. cbn [negb]. unfold raiseR at 1. unfold record at 1.
  cbn [core pyaudio_instance audio_stream trace].
  rewrite say_record by (now apply sayable).
  unfold record, raiseR. cbn. now rewrite <- app_assoc.
Qed.

(** X15. When the input stream cannot be opened, [setup_audio] reports
    the failure (its message being one that can be printed) and raises the
    same exception with the PyAudio instance kept and no stream set; a
    [cleanup] after it then makes no call on a stream, terminates the
    PyAudio instance and closes the websocket.  Without the [pyaudio]
    module [setup_audio] raises before it changes anything. *)
Theorem X15_cleanup_after_failed_setup (a : audio_host) (d : device)
    (r : recorder) (e : exn) :
  audio_stream r = false ->
  (pyaudio_module a = false ->
   exists msg, setup_audio a r = (Raise (RuntimeError msg), r))
  /\ (pyaudio_module a = true -> new_pyaudio a = Ok tt ->
      open_stream a = Raise e -> encodable (exn_str e) = true ->
      terminate d = Ok tt ->
      fst (setup_audio a r) = Raise e
      /\ fst (cleanup d (snd (setup_audio a r))) = Ok tt
      /\ core (snd (cleanup d (snd (setup_audio a r)))) = released (core r)
      /\ trace (snd (cleanup d (snd (setup_audio a r))))
         = trace r
             ++ [PyAudioCreated; Said (FailedToInitializeAudio e);
                 Said RecordingStopped]
             ++ match session (core r) with
                | Some s => [SessionClosed s]
                | None => []
                end
             ++ [PyAudioTerminated; Said CleanupCompleted]).
Proof.
  intros Ha. split.
  - intros Hm. unfold setup_audio. rewrite Hm. eexists. reflexivity.
  - intros Hm Hn Ho He Ht.
    rewrite (setup_audio_open_fails a r e Hm Hn Ho He). cbn [fst snd].
    rewrite Ha. destruct r as [st p a0 tr]. cbn in Ha. subst a0.
    unfold cleanup, stop_recording, bindR, lift, say, record, modify,
      device_call, close_websocket. cbn. rewrite Ht. unfold released.
    destruct (websocket st) as [ w | ]; cbn.
    + change (ws_closed w (set_is_recording false st)) with (ws_closed w st).
      destruct (ws_closed w st); cbn; destruct (session st); cbn;
        rewrite <- ?app_assoc; now repeat split.
    + destruct (session st); cbn; rewrite <- ?app_assoc; now repeat split.
Qed.

Lemma X15_witness :
  fst (setup_audio
         {| pyaudio_module := true; new_pyaudio := Ok tt;
            open_stream := Raise (OSError "Invalid input device") |}
         (set_core connected_state (new_recorder "sk-test")))
  = Raise (OSError "Invalid input device")
  /\ fst (cleanup good_device
            (snd (setup_audio
                    {| pyaudio_module := true; new_pyaudio := Ok tt;
                       open_stream := Raise (OSError "Invalid input device") |}
                    (set_core connected_state (new_recorder "sk-test")))))
     = Ok tt
  /\ core (snd (cleanup good_device
                  (snd (setup_audio
                          {| pyaudio_module := true; new_pyaudio := Ok tt;
                             open_stream :=
                               Raise (OSError "Invalid input device") |}
                          (set_core connected_state
                             (new_recorder "sk-test"))))))
     = released connected_state
  /\ trace (snd (cleanup good_device
                   (snd (setup_audio
                           {| pyaudio_module := true; new_pyaudio := Ok tt;
                              open_stream :=
                                Raise (OSError "Invalid input device") |}
                           (set_core connected_state
                              (new_recorder "sk-test"))))))
     = [] ++ [PyAudioCreated;
              Said (FailedToInitializeAudio (OSError "Invalid input device"));
              Said RecordingStopped]
          ++ [SessionClosed 0]
          ++ [PyAudioTerminated; Said CleanupCompleted].
Proof.
  apply (X15_cleanup_after_failed_setup
           {| pyaudio_module := true; new_pyaudio := Ok tt;
              open_stream := Raise (OSError "Invalid input device") |}
           good_device (set_core connected_state (new_recorder "sk-test"))
           (OSError "Invalid input device"));
    reflexivity.
Defined.



(** ** The keystroke script *)

Lemma replace_char_app (old : ascii) (new a b : string) :
  replace_char old new (a ++ b)%string
  = (replace_char old new a ++ replace_char old new b)%string.
Proof.
  induction a as [ | c a IH ]; [ reflexivity | ]. cbn.
  destruct (c =? old)%char; cbn; rewrite IH;
    [ now rewrite string_app_assoc | reflexivity ].
Qed.

(** The three replacements amount to one pass over the text. *)
Lemma escaped_text_cons (c : ascii) (s : string) :
  escaped_text (String c s)
  = ((if (c =? backslash)%char then String backslash (String backslash "")
      else if (c =? dquote)%char then String backslash (String dquote "")
      else if (c =? newline)%char then String backslash "n"
      else String c "") ++ escaped_text s)%string.
Proof.
  unfold escaped_text. cbn [replace_char].
  destruct (Ascii.eqb_spec c backslash) as [ -> | Hb ].
  - rewrite !replace_char_app. reflexivity.
  - cbn [replace_char]. destruct (Ascii.eqb_spec c dquote) as [ -> | Hq ].
    + rewrite !replace_char_app. reflexivity.
    + cbn [replace_char]. destruct (Ascii.eqb_spec c newline) as [ -> | Hn ];
        reflexivity.
Qed.

(** X17. The text typed by auto-paste is escaped so that the string
    literal of the keystroke script ends where it should: read as
    AppleScript reads a literal, the escaped text followed by the closing
    quote gives back exactly the new content and leaves what follows the
    quote, whatever backslashes, quotes and line feeds the content holds;
    and the escaped text holds no raw line feed. *)
Theorem X17_escaped_text_reads_back (new_content rest : string) :
  read_literal (escaped_text new_content ++ String dquote rest)
  = Some (new_content, rest)
  /\ ~ In newline (list_ascii_of_string (escaped_text new_content))
  /\ exists body,
       applescript new_content = (keystroke_head ++ String dquote body)%string
       /\ read_literal body = Some (new_content, EmptyString).
Proof.
  assert (RT : forall s tail,
             read_literal (escaped_text s ++ String dquote tail)
             = Some (s, tail)).
  { intros s tail. induction s as [ | c s IH ]; [ reflexivity | ].
    rewrite escaped_text_cons.
    destruct (Ascii.eqb_spec c backslash) as [ -> | Hb ];
      [ cbn; cbn in IH; now rewrite IH | ].
    destruct (Ascii.eqb_spec c dquote) as [ -> | Hq ];
      [ cbn; cbn in IH; now rewrite IH | ].
    destruct (Ascii.eqb_spec c newline) as [ -> | Hn ];
      [ cbn; cbn in IH; now rewrite IH | ].
    cbn [String.append read_literal].
    destruct (Ascii.eqb_spec c dquote); [ contradiction | ].
    destruct (Ascii.eqb_spec c backslash); [ contradiction | ].
    now rewrite IH. }
  split; [ apply RT | split ].
  - induction new_content as [ | c s IH ]; [ intros [] | ].
    rewrite escaped_text_cons.
    destruct (Ascii.eqb_spec c backslash) as [ -> | Hb ];
      [ cbn; intros [ H | [ H | H ] ]; [ discriminate | discriminate | tauto ] | ].
    destruct (Ascii.eqb_spec c dquote) as [ -> | Hq ];
      [ cbn; intros [ H | [ H | H ] ]; [ discriminate | discriminate | tauto ] | ].
    destruct (Ascii.eqb_spec c newline) as [ -> | Hn ];
      [ cbn; intros [ H | [ H | H ] ]; [ discriminate | discriminate | tauto ] | ].
    cbn. intros [ H | H ]; [ congruence | tauto ].
  - eexists. split; [ reflexivity | apply RT ].
Qed.

(** ** Auto-paste *)

Lemma handle_auto_paste_no_new_content (strip lower : string -> string)
    (frontmost keystroke : result completed) (t : string) (s : paste_state) :
  py_len t <= last_pasted_length s ->
  handle_auto_paste strip lower frontmost keystroke t s = s.
Proof.
  intros H. unfold handle_auto_paste.
  destruct (Nat.ltb_spec (last_pasted_length s) (py_len t)); [ lia | ].
  reflexivity.
Qed.

Lemma handle_auto_paste_typed (strip lower : string -> string)
    (front typed : completed) (t : string) (s : paste_state) :
  last_pasted_length s < py_len t ->
  2 <= py_len (strip (py_from (last_pasted_length s) t)) ->
  existsb (fun app => contains (lower app) (lower (strip (run_stdout front))))
    skip_apps = false ->
  run_returncode typed = 0%Z ->
  handle_auto_paste strip lower (Ok front) (Ok typed) t s
  = {| last_pasted_length := py_len t;
       scripts_run :=
         scripts_run s
           ++ [check_app_script; applescript (py_from (last_pasted_length s) t)];
       paste_console := paste_console s |}.
Proof.
  intros Hlen Hnew Hskip Hret. unfold handle_auto_paste.
  destruct (Nat.ltb_spec (last_pasted_length s) (py_len t)); [ | lia ].
  destruct (Nat.ltb_spec (py_len (strip (py_from (last_pasted_length s) t))) 2);
    [ lia | ].
  rewrite Hskip, andb_false_r, Hret. cbn. now rewrite app_nil_r.
Qed.

(** X18. [handle_auto_paste] takes the text it is given as the
    continuation of the text it typed last: only the part beyond
    [last_pasted_length] characters is typed.  So after a first text has
    been typed, a second text that is not longer runs no script and is
    never typed, whatever it says; and of a longer one only the characters
    beyond the length of the first are typed. *)
Theorem X18_auto_paste_types_only_the_tail (strip lower : string -> string)
    (front typed : completed) (frontmost keystroke : result completed)
    (first second : string) (s : paste_state) :
  last_pasted_length s < py_len first ->
  2 <= py_len (strip (py_from (last_pasted_length s) first)) ->
  existsb (fun app => contains (lower app) (lower (strip (run_stdout front))))
    skip_apps = false ->
  run_returncode typed = 0%Z ->
  let s1 := handle_auto_paste strip lower (Ok front) (Ok typed) first s in
  scripts_run s1
  = scripts_run s
      ++ [check_app_script;
          applescript (py_from (last_pasted_length s) first)]
  /\ last_pasted_length s1 = py_len first
  /\ (py_len second <= py_len first ->
      handle_auto_paste strip lower frontmost keystroke second s1 = s1)
  /\ (py_len first < py_len second ->
      2 <= py_len (strip (py_from (py_len first) second)) ->
      scripts_run
        (handle_auto_paste strip lower (Ok front) (Ok typed) second s1)
      = scripts_run s1
          ++ [check_app_script; applescript (py_from (py_len first) second)]).
Proof.
  intros Hlen Hnew Hskip Hret. cbv zeta.
  rewrite (handle_auto_paste_typed strip lower front typed first s
             Hlen Hnew Hskip Hret).
  cbn [scripts_run last_pasted_length].
  split; [ reflexivity | split; [ reflexivity | split ] ].
  - intros H. now apply handle_auto_paste_no_new_content.
  - intros H2 Hnew2.
    match goal with
    | |- context [handle_auto_paste _ _ _ _ second ?s1] =>
        now rewrite (handle_auto_paste_typed strip lower front typed second
                       s1 H2 Hnew2 Hskip Hret)
    end.
Qed.

Lemma X18_witness :
  let s0 := {| last_pasted_length := 0; scripts_run := [];
               paste_console := [] |} in
  let s1 := handle_auto_paste ascii_strip ascii_lower front_safari typed_ok
              "See you at noon." s0 in
  scripts_run s1
  = [] ++ [check_app_script; applescript (py_from 0 "See you at noon.")]
  /\ last_pasted_length s1 = py_len "See you at noon."
  /\ (py_len "Thanks a lot." <= py_len "See you at noon." ->
      handle_auto_paste ascii_strip ascii_lower front_safari typed_ok
        "Thanks a lot." s1 = s1)
  /\ (py_len "See you at noon." < py_len "Thanks a lot." ->
      2 <= py_len (ascii_strip
                     (py_from (py_len "See you at noon.") "Thanks a lot.")) ->
      scripts_run
        (handle_auto_paste ascii_strip ascii_lower front_safari typed_ok
           "Thanks a lot." s1)
      = scripts_run s1
          ++ [check_app_script;
              applescript (py_from (py_len "See you at noon.")
                             "Thanks a lot.")]).
Proof.
  cbv zeta.
  apply (X18_auto_paste_types_only_the_tail ascii_strip ascii_lower
           {| run_returncode := 0; run_stdout := "Safari"; run_stderr := "" |}
           {| run_returncode := 0; run_stdout := ""; run_stderr := "" |}
           front_safari typed_ok "See you at noon." "Thanks a lot."
           {| last_pasted_length := 0; scripts_run := [];
              paste_console := [] |});
    vm_compute; try reflexivity; lia.
Defined.

